(** * github-metrics: the query executor and the stats aggregator

    A shallow embedding of [src/github_metrics/main.py]: the configuration
    helpers ([parse_csv], [str_to_bool], [Config.from_env]), the query
    executor ([GraphQLClient.execute]), the aggregation pipeline of
    [StatsCollector] ([run], [_fetch_additional_languages],
    [_fetch_contributions_total], [_build_language_shares]), and the
    number format and the overview template of the renderer
    ([format_number], [TemplateRenderer.render_overview]).

    Conventions of the embedding.
    - Python [int] is [Z]; the [float] percentage of a language share is a
      rational [Q], the value of the source's expression before the
      rounding of binary64, which is not modelled.  The conversions between
      [int] and [str] obey the interpreter's limit of 4300 digits.
    - [str] is [string]; [lower], [strip] and [int] act on the ASCII range.
    - [set[str]] is [gset string]; the insertion-ordered [dict] of language
      totals is an association list with unique keys, because the final
      stable sort makes the insertion order observable.
    - The JSON objects the queries request are records.  A field read with
      [.get(k)] is an [option]; an object read with [.get(k) or {}] is the
      record itself, whose all-absent value stands for a missing object.
      The leaves the source converts with [int(...)] under a [try] are
      dynamic values [pyval].  JSON numbers are integers (GraphQL [Int]).
      The executor checks no shape: the body of an answer may be any
      JSON value and its [errors] any [pyval], and the [AttributeError]
      or [TypeError] of a [.get], an iteration or a [join] on the wrong
      kind of value is an outcome like the exceptions the source raises.
    - Raising is the [Raise] outcome; the [while] loops take fuel and
      [OutOfFuel] stands for a loop the server never lets end. *)

From Stdlib Require Import ZArith QArith String Ascii List Lia Bool Sorted Permutation.
From Stdlib Require Import DecimalString DecimalFacts DecimalN DecimalPos.
From stdpp Require Import gmap strings list.
Import ListNotations.

Local Open Scope string_scope.
Local Open Scope Z_scope.
Local Open Scope list_scope.

(** ** Strings, as the builtins of the source act on them *)

Module PyStr.

Definition code (c : ascii) : N := N_of_ascii c.

(** [str.lower] on one ASCII character. *)
Definition lower_char (c : ascii) : ascii :=
  if ((65 <=? code c) && (code c <=? 90))%N
  then ascii_of_N (code c + 32) else c.

Fixpoint lower (s : string) : string :=
  match s with
  | EmptyString => EmptyString
  | String c r => String (lower_char c) (lower r)
  end.

(** [str.isspace] on the ASCII range: TAB..CR, FS..US and the space. *)
Definition isspace (c : ascii) : bool :=
  (((9 <=? code c) && (code c <=? 13))
   || ((28 <=? code c) && (code c <=? 32)))%N.

Fixpoint lstrip_by (sp : ascii -> bool) (s : string) : string :=
  match s with
  | EmptyString => EmptyString
  | String c r => if sp c then lstrip_by sp r else s
  end.

Fixpoint rstrip_by (sp : ascii -> bool) (s : string) : string :=
  match s with
  | EmptyString => EmptyString
  | String c r =>
      match rstrip_by sp r with
      | EmptyString => if sp c then EmptyString else String c EmptyString
      | r' => String c r'
      end
  end.

Definition strip_by (sp : ascii -> bool) (s : string) : string :=
  rstrip_by sp (lstrip_by sp s).

(** [s.strip()] *)
Definition strip (s : string) : string := strip_by isspace s.

(** [s.split(sep)] for a one-character separator. *)
Fixpoint split (sep : ascii) (s : string) : list string :=
  match s with
  | EmptyString => [EmptyString]
  | String c r =>
      if Ascii.eqb c sep then EmptyString :: split sep r
      else match split sep r with
           | h :: t => String c h :: t
           | [] => [String c EmptyString]
           end
  end.

(** [sep in s] for a one-character [sep]. *)
Fixpoint contains (sep : ascii) (s : string) : bool :=
  match s with
  | EmptyString => false
  | String c r => Ascii.eqb c sep || contains sep r
  end.

(** [sep.join(items)] *)
Fixpoint join (sep : string) (items : list string) : string :=
  match items with
  | [] => EmptyString
  | [x] => x
  | x :: rest => x +:+ sep +:+ join sep rest
  end.

(** [s[:n]] *)
Definition prefix (n : nat) (s : string) : string := substring 0 n s.

(** Truthiness of a string: [bool(s)]. *)
Definition nonempty (s : string) : bool :=
  match s with EmptyString => false | _ => true end.

(** [int(s)] for a string: the blanks [int] strips are TAB..CR and the
    space; then an optional sign and decimal digits, where single
    underscores may separate digits.  [None] is [ValueError]. *)
Definition int_space (c : ascii) : bool :=
  (((9 <=? code c) && (code c <=? 13)) || (code c =? 32))%N.

Definition is_digit (c : ascii) : bool :=
  ((48 <=? code c) && (code c <=? 57))%N.

Definition digit_value (c : ascii) : Z := Z.of_N (code c) - 48.

Fixpoint digits (s : string) (acc : Z) (after_digit : bool) : option Z :=
  match s with
  | EmptyString => if after_digit then Some acc else None
  | String c r =>
      if is_digit c then digits r (10 * acc + digit_value c) true
      else if Ascii.eqb c "_" && after_digit then digits r acc false
      else None
  end.

(** [sys.int_max_str_digits] at its default: a conversion between [int]
    and [str] of more digits raises [ValueError]. *)
Definition INT_MAX_STR_DIGITS : Z := 4300.

Definition digit_count (s : string) : Z :=
  Z.of_nat (length (List.filter is_digit (list_ascii_of_string s))).

(** [int(s)]; [None] is its [ValueError]. *)
Definition to_int (s : string) : option Z :=
  let literal := strip_by int_space s in
  if INT_MAX_STR_DIGITS <? digit_count literal then None
  else
    match literal with
    | String "-" r => Z.opp <$> digits r 0 false
    | String "+" r => digits r 0 false
    | r => digits r 0 false
    end.

End PyStr.

(** ** Dynamic values at the leaves the source converts itself *)

#[warnings="-register-all"]
Inductive pyval : Type :=
| PNone
| PBool (b : bool)
| PInt (z : Z)
| PStr (s : string)
| PList (items : list pyval)
| PDict (items : list (string * pyval)).

(** [bool(v)] *)
Definition truthy (v : pyval) : bool :=
  match v with
  | PNone => false
  | PBool b => b
  | PInt z => negb (z =? 0)
  | PStr s => PyStr.nonempty s
  | PList items => match items with [] => false | _ => true end
  | PDict items => match items with [] => false | _ => true end
  end.

(** [v or d] *)
Definition py_or (v d : pyval) : pyval := if truthy v then v else d.

(** [int(v)]; [None] is the [TypeError] or [ValueError] the source
    catches around each conversion. *)
Definition py_int (v : pyval) : option Z :=
  match v with
  | PNone => None
  | PBool b => Some (if b then 1 else 0)
  | PInt z => Some z
  | PStr s => PyStr.to_int s
  | PList _ => None
  | PDict _ => None
  end.

(** [s or d] for an optional string. *)
Definition str_or (s : option string) (d : string) : string :=
  match s with
  | Some x => if PyStr.nonempty x then x else d
  | None => d
  end.

(** [bool(s)] for an optional string. *)
Definition str_truthy (s : option string) : bool :=
  match s with Some x => PyStr.nonempty x | None => false end.

(** ** Exceptions and outcomes *)

(** The exceptions of the source ([ConfigError], [GitHubAPIError]), the
    one of the transport library, and the two that the interpreter
    raises where the executor reads an answer of an unexpected shape. *)
Inductive exn : Type :=
| ConfigError (msg : string)
| GitHubAPIError (msg : string)
| RequestException (msg : string)
| TypeError
| AttributeError.

Inductive outcome (A : Type) : Type :=
| Ok (a : A)
| Raise (e : exn)
| OutOfFuel.
Arguments Ok {A} a.
Arguments Raise {A} e.
Arguments OutOfFuel {A}.

Definition bind {A B} (m : outcome A) (k : A -> outcome B) : outcome B :=
  match m with
  | Ok a => k a
  | Raise e => Raise e
  | OutOfFuel => OutOfFuel
  end.

Notation "x <- m ;; k" := (bind m (fun x => k))
  (at level 100, m at next level, right associativity).

Definition is_api_error {A} (o : outcome A) : bool :=
  match o with Raise (GitHubAPIError _) => true | _ => false end.

(** ** Configuration *)

Definition DEFAULT_LANGUAGE_COLOR : string := "#ededed".

Record Config : Type := {
  login : string;
  token : string;
  excluded_repos : gset string;
  excluded_languages : gset string;
  exclude_forked : bool;
  languages_limit : Z;
  templates_dir : string;
  output_dir : string
}.

(** [parse_csv]: the set of the stripped, lower-cased, non-empty items. *)
Definition parse_csv (raw : option string) : gset string :=
  match raw with
  | None => ∅
  | Some r =>
      if negb (PyStr.nonempty r) then ∅
      else list_to_set
             (map (fun item => PyStr.lower (PyStr.strip item))
                  (List.filter (fun item => PyStr.nonempty (PyStr.strip item))
                               (PyStr.split "," r)))
  end.

Definition true_literals : list string := ["1"; "true"; "yes"; "y"; "on"].
Definition false_literals : list string := ["0"; "false"; "no"; "n"; "off"].

Definition str_in (s : string) (l : list string) : bool :=
  existsb (String.eqb s) l.

(** [str_to_bool(value, default)] *)
Definition str_to_bool (value : option string) (default : bool) : outcome bool :=
  match value with
  | None => Ok default
  | Some v =>
      let normalized := PyStr.lower (PyStr.strip v) in
      if str_in normalized true_literals then Ok true
      else if str_in normalized false_literals then Ok false
      else Raise (ConfigError ("Invalid boolean value: " +:+ v))
  end.

(** [Config.from_env].  [getenv] is [os.getenv]; [base_dir] is the
    resolved grand-parent of the module file and [templates_exist] the
    answer of [templates_dir.exists()]. *)
Definition from_env (getenv : string -> option string)
    (base_dir : string) (templates_exist : bool) : outcome Config :=
  let login := getenv "GITHUB_ACTOR" in
  if negb (str_truthy login) then
    Raise (ConfigError "Environment variable GITHUB_ACTOR is required.")
  else
  let token := getenv "ACCESS_TOKEN" in
  if negb (str_truthy token) then
    Raise (ConfigError "Environment variable ACCESS_TOKEN is required.")
  else
  let excluded_repos := parse_csv (getenv "EXCLUDED_REPO") in
  let excluded_languages := parse_csv (getenv "EXCLUDED_LANGS") in
  exclude_forked <- str_to_bool (getenv "EXCLUDE_FORKED") true ;;
  languages_limit <-
    (let langs_limit_raw := getenv "LANGS_LIMIT" in
     if str_truthy langs_limit_raw then
       match PyStr.to_int (str_or langs_limit_raw "") with
       | None => Raise (ConfigError "LANGS_LIMIT must be an integer.")
       | Some n =>
           if n <=? 0
           then Raise (ConfigError "LANGS_LIMIT must be greater than zero.")
           else Ok n
       end
     else Ok 10) ;;
  let templates_dir := base_dir +:+ "/templates" in
  let output_dir := base_dir +:+ "/stats" in
  if negb templates_exist then
    Raise (ConfigError ("Templates directory not found: " +:+ templates_dir))
  else
    Ok {| login := str_or login "";
          token := str_or token "";
          excluded_repos := excluded_repos;
          excluded_languages := excluded_languages;
          exclude_forked := exclude_forked;
          languages_limit := languages_limit;
          templates_dir := templates_dir;
          output_dir := output_dir |}.

(** ** Results *)

Record LanguageShare : Type := {
  ls_name : string;
  ls_size : Z;
  ls_color : string;
  ls_percent : Q
}.

Record MetricsResult : Type := {
  actor_login : string;
  display_name : string;
  total_stars : Z;
  total_forks : Z;
  total_contributions : Z;
  total_lines_changed : Z;
  total_views : Z;
  repository_count : Z;
  languages : list LanguageShare
}.

(** ** The query executor *)

(** The value [response.json()] returns: a JSON object, of which the
    executor reads [payload.get("errors")] ([PNone] when the key is
    absent) and [payload.get("data")], or a JSON value of another kind
    (an array, a string, a number, [null]), which has no [.get]. *)
Inductive Payload (D : Type) : Type :=
| NotAnObject
| Object (errors : pyval) (data : option D).
Arguments NotAnObject {D}.
Arguments Object {D} errors data.

(** [d.get(k)] on the items of a JSON object. *)
Fixpoint py_get (k : string) (items : list (string * pyval))
  : option pyval :=
  match items with
  | [] => None
  | (k', v) :: rest => if String.eqb k' k then Some v else py_get k rest
  end.

(** [err.get("message", "unknown error")] for one element [err] of the
    iteration: only an object has a [.get]. *)
Definition entry_message (err : pyval) : outcome pyval :=
  match err with
  | PDict items =>
      Ok (match py_get "message" items with
          | Some v => v
          | None => PStr "unknown error"
          end)
  | _ => Raise AttributeError
  end.

(** What [join] asks of each item it is given. *)
Definition as_str (v : pyval) : outcome string :=
  match v with
  | PStr s => Ok s
  | _ => Raise TypeError
  end.

Fixpoint map_outcome {A B} (f : A -> outcome B) (l : list A)
  : outcome (list B) :=
  match l with
  | [] => Ok []
  | a :: rest =>
      b <- f a ;;
      bs <- map_outcome f rest ;;
      Ok (b :: bs)
  end.

(** [", ".join(err.get("message", "unknown error") for err in errors)]
    for a truthy [errors].  A list is walked to its end before [join]
    looks at the items; a string yields its characters and an object its
    keys, neither of which has a [.get]; a number or a boolean cannot be
    iterated. *)
Definition join_messages (errors : pyval) : outcome string :=
  match errors with
  | PList items =>
      values <- map_outcome entry_message items ;;
      texts <- map_outcome as_str values ;;
      Ok (PyStr.join ", " texts)
  | PStr _ | PDict _ => Raise AttributeError
  | PNone | PBool _ | PInt _ => Raise TypeError
  end.

(** What [session.post] hands back: the status, the text of the
    [HTTPError] that [raise_for_status] would build, the body text, and
    the body parsed by [response.json()] ([None]: it raises
    [ValueError]). *)
Record Response (D : Type) : Type := {
  status_code : Z;
  http_error : string;
  text : string;
  json : option (Payload D)
}.
Arguments status_code {D} _.
Arguments http_error {D} _.
Arguments text {D} _.
Arguments json {D} _.

(** One network exchange: [session.post] either raises an exception of
    the transport library (no connection, timeout) or returns a
    response. *)
Inductive Exchange (D : Type) : Type :=
| ConnectionFailed (reason : string)
| Responded (response : Response D).
Arguments ConnectionFailed {D} reason.
Arguments Responded {D} response.

(** [Response.raise_for_status] of the transport library raises exactly
    for the client and server error statuses. *)
Definition raise_for_status {D} (response : Response D) : bool :=
  (400 <=? status_code response) && (status_code response <? 600).

(** [GraphQLClient.execute], from the point where [session.post] has
    answered or raised. *)
Definition execute {D} (exchange : Exchange D) : outcome D :=
  match exchange with
  | ConnectionFailed reason => Raise (RequestException reason)
  | Responded response =>
      if raise_for_status response then
        Raise (GitHubAPIError
                 ("GitHub API HTTP error: " +:+ http_error response
                  +:+ " - " +:+ text response))
      else
        match json response with
        | None => Raise (GitHubAPIError "GitHub API returned invalid JSON.")
        | Some NotAnObject => Raise AttributeError
        | Some (Object payload_errors data) =>
            let errors := py_or payload_errors (PList []) in
            if truthy errors then
              messages <- join_messages errors ;;
              Raise (GitHubAPIError ("GitHub API error: " +:+ messages))
            else
              match data with
              | None =>
                  Raise (GitHubAPIError
                           "GitHub API response missing data field.")
              | Some d => Ok d
              end
        end
  end.

(** ** The payloads of the three queries *)

Record LanguageNode : Type := {
  lang_name : option string;
  lang_color : option string
}.

(** [edge_node] is [edge.get("node") or {}]. *)
Record Edge : Type := {
  edge_size : pyval;
  edge_node : LanguageNode
}.

(** [hasNextPage] is read for its truth value only. *)
Record PageInfo : Type := {
  hasNextPage : bool;
  endCursor : option string
}.

Record LanguagesBlock : Type := {
  edges : list Edge;
  languages_pageInfo : PageInfo
}.

Record RepositoryNode : Type := {
  name : option string;
  nameWithOwner : option string;
  stargazerCount : option Z;
  forkCount : option Z;
  isFork : option bool;
  node_languages : LanguagesBlock
}.

Record Repositories : Type := {
  nodes : list RepositoryNode;
  pageInfo : PageInfo
}.

Record RepositoryOwner : Type := {
  owner_login : option string;
  owner_display_name : option string;
  repositories : Repositories
}.

Record RepositoriesData : Type := {
  repositoryOwner : option RepositoryOwner
}.

(** [repository_languages] is
    [(data.get("repository") or {}).get("languages") or {}]. *)
Record LanguagesData : Type := {
  repository_languages : LanguagesBlock
}.

Record ContributionCalendar : Type := { totalContributions : pyval }.
Record ContributionsCollection : Type := {
  contributionCalendar : ContributionCalendar
}.
Record User : Type := { contributionsCollection : ContributionsCollection }.
Record ContributionsData : Type := { user : option User }.

(** The variables sent with each query. *)
Record RepositoriesVariables : Type := {
  rv_login : string;
  rv_cursor : option string;
  rv_isFork : option bool
}.

Record LanguagesVariables : Type := {
  lv_owner : string;
  lv_name : string;
  lv_cursor : string
}.

Record ContributionsVariables : Type := { cv_login : string }.

(** The remote service as the client sees it: what [session.post] yields
    for each query and its variables. *)
Record GraphQLClient : Type := {
  post_repositories : RepositoriesVariables -> Exchange RepositoriesData;
  post_languages : LanguagesVariables -> Exchange LanguagesData;
  post_contributions : ContributionsVariables -> Exchange ContributionsData
}.

(** ** The stats collector *)

(** One value of the [language_totals] dictionary. *)
Record Bucket : Type := {
  b_size : Z;
  b_color : string
}.

(** What the collector logs: the arguments of its [logger] calls.  The
    repository line keeps the list [filtered_languages] from which the
    source formats the language summary. *)
Inductive LogRecord : Type :=
| LogSkipping (name_with_owner : string)
| LogRepo (name_with_owner : string) (stars forks : Z)
          (filtered_languages : list LanguageShare)
| LogContributionsFailed (msg : string).

(** The local variables of [run] that the loops update. *)
Record Totals : Type := {
  st_total_stars : Z;
  st_total_forks : Z;
  st_total_lines : Z;
  st_repository_count : Z;
  st_language_totals : list (string * Bucket);
  st_log : list LogRecord
}.

Definition initial_totals : Totals :=
  {| st_total_stars := 0; st_total_forks := 0; st_total_lines := 0;
     st_repository_count := 0; st_language_totals := []; st_log := [] |}.

(** *** The insertion-ordered dictionary *)

Fixpoint dict_get (k : string) (d : list (string * Bucket)) : option Bucket :=
  match d with
  | [] => None
  | (k', b) :: rest => if String.eqb k' k then Some b else dict_get k rest
  end.

(** [d.setdefault(k, default)]: a new key goes last. *)
Definition setdefault (k : string) (default : Bucket)
    (d : list (string * Bucket)) : list (string * Bucket) :=
  match dict_get k d with
  | Some _ => d
  | None => d ++ [(k, default)]
  end.

(** In-place mutation of the bucket stored under [k]. *)
Fixpoint dict_update (k : string) (f : Bucket -> Bucket)
    (d : list (string * Bucket)) : list (string * Bucket) :=
  match d with
  | [] => []
  | (k', b) :: rest =>
      if String.eqb k' k then (k', f b) :: rest
      else (k', b) :: dict_update k f rest
  end.

(** *** The edge loop of [run] (source lines 296 to 329) *)

(** The filter: [None] is a [continue]. *)
Definition accept_edge (cfg : Config) (edge : Edge) : option LanguageShare :=
  let lang_node := edge_node edge in
  match lang_name lang_node with
  | None => None
  | Some lang_name =>
      if negb (PyStr.nonempty lang_name) then None
      else if bool_decide (PyStr.lower lang_name ∈ excluded_languages cfg)
      then None
      else
        let size_value := py_or (edge_size edge) (PInt 0) in
        match py_int size_value with
        | None => None
        | Some size =>
            if size <=? 0 then None
            else
              let color := str_or (lang_color lang_node) DEFAULT_LANGUAGE_COLOR in
              Some {| ls_name := lang_name; ls_size := size;
                      ls_color := color; ls_percent := 0 |}
        end
  end.

(** The accumulation of an accepted edge. *)
Definition merge_bucket (size : Z) (color : string) (bucket : Bucket) : Bucket :=
  let bucket := {| b_size := b_size bucket + size; b_color := b_color bucket |} in
  if negb (PyStr.nonempty (b_color bucket)) && PyStr.nonempty color
  then {| b_size := b_size bucket; b_color := color |}
  else bucket.

Definition merge_language (size : Z) (lang_name color : string)
    (language_totals : list (string * Bucket)) : list (string * Bucket) :=
  dict_update lang_name (merge_bucket size color)
    (setdefault lang_name
       {| b_size := 0; b_color := str_or (Some color) DEFAULT_LANGUAGE_COLOR |}
       language_totals).

Definition accumulate (share : LanguageShare) (st : Totals) : Totals :=
  {| st_total_stars := st_total_stars st;
     st_total_forks := st_total_forks st;
     st_total_lines := st_total_lines st + ls_size share;
     st_repository_count := st_repository_count st;
     st_language_totals :=
       merge_language (ls_size share) (ls_name share) (ls_color share)
         (st_language_totals st);
     st_log := st_log st |}.

Fixpoint edges_loop (cfg : Config) (edges : list Edge)
    (filtered_languages : list LanguageShare) (st : Totals)
  : list LanguageShare * Totals :=
  match edges with
  | [] => (filtered_languages, st)
  | edge :: rest =>
      match accept_edge cfg edge with
      | None => edges_loop cfg rest filtered_languages st
      | Some share =>
          edges_loop cfg rest (filtered_languages ++ [share]) (accumulate share st)
      end
  end.

(** *** [_fetch_additional_languages] *)

Fixpoint languages_loop (fuel : nat) (client : GraphQLClient)
    (owner name : string) (next_cursor : option string) (fetched : list Edge)
  : outcome (list Edge) :=
  if negb (str_truthy next_cursor) then Ok fetched
  else
    match fuel with
    | O => OutOfFuel
    | S fuel' =>
        data <- execute (post_languages client
                           {| lv_owner := owner; lv_name := name;
                              lv_cursor := str_or next_cursor "" |}) ;;
        let languages := repository_languages data in
        let fetched := fetched ++ edges languages in
        let page_info := languages_pageInfo languages in
        if hasNextPage page_info
        then languages_loop fuel' client owner name (endCursor page_info) fetched
        else languages_loop fuel' client owner name None fetched
    end.

Definition _fetch_additional_languages (fuel : nat) (client : GraphQLClient)
    (owner name : string) (cursor : option string) : outcome (list Edge) :=
  languages_loop fuel client owner name cursor [].

(** *** The repository loop of [run] (source lines 262 to 352) *)

(** [a or b] on optional strings. *)
Definition opt_or (a b : option string) : option string :=
  if str_truthy a then a else b.

Definition log_record (r : LogRecord) (st : Totals) : Totals :=
  {| st_total_stars := st_total_stars st;
     st_total_forks := st_total_forks st;
     st_total_lines := st_total_lines st;
     st_repository_count := st_repository_count st;
     st_language_totals := st_language_totals st;
     st_log := st_log st ++ [r] |}.

Definition is_excluded_repo (cfg : Config) (repo_name name_with_owner : string)
  : bool :=
  let lower_repo_names : gset string :=
    {[ PyStr.lower repo_name; PyStr.lower name_with_owner ]} in
  bool_decide (excluded_repos cfg ∩ lower_repo_names ≠ ∅).

(** The owner part of a qualified name. *)
Definition owner_part_of (cfg : Config) (name_with_owner : string) : string :=
  if PyStr.contains "/" name_with_owner
  then hd EmptyString (PyStr.split "/" name_with_owner)
  else login cfg.

Definition count_repository (name_with_owner : string) (stars forks : Z)
    (filtered_languages : list LanguageShare) (st : Totals) : Totals :=
  {| st_total_stars := st_total_stars st + stars;
     st_total_forks := st_total_forks st + forks;
     st_total_lines := st_total_lines st;
     st_repository_count := st_repository_count st + 1;
     st_language_totals := st_language_totals st;
     st_log := st_log st
               ++ [LogRepo name_with_owner stars forks filtered_languages] |}.

(** One iteration of [for node in nodes]. *)
Definition process_node (fuel : nat) (cfg : Config) (client : GraphQLClient)
    (st : Totals) (node : RepositoryNode) : outcome Totals :=
  let repo_name := name node in
  let name_with_owner := opt_or (nameWithOwner node) repo_name in
  if negb (str_truthy repo_name) then Ok st
  else
    let repo_name := str_or repo_name "" in
    if is_excluded_repo cfg repo_name (str_or name_with_owner "")
    then Ok (log_record (LogSkipping (str_or name_with_owner "")) st)
    else
      let languages_block := node_languages node in
      let edges := edges languages_block in
      let page_info := languages_pageInfo languages_block in
      let has_next := hasNextPage page_info in
      let end_cursor := endCursor page_info in
      edges <-
        (if has_next && str_truthy name_with_owner then
           let owner_part := owner_part_of cfg (str_or name_with_owner "") in
           more <- _fetch_additional_languages fuel client owner_part
                     repo_name end_cursor ;;
           Ok (edges ++ more)
         else Ok edges) ;;
      let '(filtered_languages, st) := edges_loop cfg edges [] st in
      let stars := default 0 (stargazerCount node) in
      let forks := default 0 (forkCount node) in
      Ok (count_repository (str_or name_with_owner "") stars forks
            filtered_languages st).

Fixpoint nodes_loop (fuel : nat) (cfg : Config) (client : GraphQLClient)
    (nodes : list RepositoryNode) (st : Totals) : outcome Totals :=
  match nodes with
  | [] => Ok st
  | node :: rest =>
      st <- process_node fuel cfg client st node ;;
      nodes_loop fuel cfg client rest st
  end.

(** The filter sent with the repository query. *)
Definition is_fork_filter (cfg : Config) : option bool :=
  if exclude_forked cfg then Some false else None.

Definition repositories_variables (cfg : Config) (cursor : option string)
  : RepositoriesVariables :=
  {| rv_login := login cfg; rv_cursor := cursor;
     rv_isFork := is_fork_filter cfg |}.

(** The [while True] loop of [run] over the repository pages. *)
Fixpoint repositories_loop (fuel : nat) (cfg : Config) (client : GraphQLClient)
    (owner_name : option string) (cursor : option string) (st : Totals)
  : outcome (option string * Totals) :=
  match fuel with
  | O => OutOfFuel
  | S fuel' =>
      data <- execute (post_repositories client
                         (repositories_variables cfg cursor)) ;;
      match repositoryOwner data with
      | None =>
          Raise (ConfigError
                   ("GitHub owner '" +:+ login cfg
                    +:+ "' was not found or is not accessible."))
      | Some owner =>
          let owner_name :=
            match owner_name with
            | None =>
                Some (str_or (owner_display_name owner)
                        (str_or (owner_login owner) (login cfg)))
            | Some _ => owner_name
            end in
          let repositories := repositories owner in
          st <- nodes_loop fuel' cfg client (nodes repositories) st ;;
          let page_info := pageInfo repositories in
          if hasNextPage page_info
          then repositories_loop fuel' cfg client owner_name
                 (endCursor page_info) st
          else Ok (owner_name, st)
      end
  end.

(** *** [_fetch_contributions_total] *)

Definition _fetch_contributions_total (cfg : Config) (client : GraphQLClient)
  : outcome (Z * list LogRecord) :=
  match execute (post_contributions client {| cv_login := login cfg |}) with
  | Raise (GitHubAPIError msg) => Ok (0, [LogContributionsFailed msg])
  | Raise e => Raise e
  | OutOfFuel => OutOfFuel
  | Ok data =>
      match user data with
      | None => Ok (0, [])
      | Some user =>
          let collection := contributionsCollection user in
          let calendar := contributionCalendar collection in
          let total := py_or (totalContributions calendar) (PInt 0) in
          match py_int total with
          | Some n => Ok (n, [])
          | None => Ok (0, [])
          end
      end
  end.

(** *** [_build_language_shares] *)

(** [sorted(items, key=size, reverse=True)]: descending, and stable, so
    equal sizes stay in insertion order. *)
Fixpoint insert_desc (item : string * Bucket) (l : list (string * Bucket))
  : list (string * Bucket) :=
  match l with
  | [] => [item]
  | y :: rest =>
      if b_size (snd y) <=? b_size (snd item) then item :: y :: rest
      else y :: insert_desc item rest
  end.

Fixpoint sorted_desc (l : list (string * Bucket)) : list (string * Bucket) :=
  match l with
  | [] => []
  | item :: rest => insert_desc item (sorted_desc rest)
  end.

Definition percent_of (total_lines size : Z) : Q :=
  if total_lines =? 0 then 0%Q
  else (inject_Z size / inject_Z total_lines * 100)%Q.

Definition share_of (total_lines : Z) (item : string * Bucket) : LanguageShare :=
  let '(name, data) := item in
  let size := b_size data in
  let color := PyStr.prefix 7 (str_or (Some (b_color data)) DEFAULT_LANGUAGE_COLOR) in
  {| ls_name := name; ls_size := size; ls_color := color;
     ls_percent := percent_of total_lines size |}.

(** The [for index, (name, data) in enumerate(sorted_items)] loop with its
    [break]. *)
Fixpoint shares_loop (cfg : Config) (total_lines : Z) (index : Z)
    (sorted_items : list (string * Bucket)) : list LanguageShare :=
  match sorted_items with
  | [] => []
  | item :: rest =>
      if languages_limit cfg <=? index then []
      else share_of total_lines item
           :: shares_loop cfg total_lines (index + 1) rest
  end.

Definition _build_language_shares (cfg : Config)
    (language_totals : list (string * Bucket)) (total_lines : Z)
  : list LanguageShare :=
  if (total_lines <=? 0)
     || match language_totals with [] => true | _ => false end
  then []
  else shares_loop cfg total_lines 0 (sorted_desc language_totals).

(** *** [run] *)

(** The pagination part of [run]: the state when the repository loop
    ends. *)
Definition collect (fuel : nat) (cfg : Config) (client : GraphQLClient)
  : outcome (option string * Totals) :=
  repositories_loop fuel cfg client None None initial_totals.

Definition run (fuel : nat) (cfg : Config) (client : GraphQLClient)
  : outcome (MetricsResult * list LogRecord) :=
  collected <- collect fuel cfg client ;;
  let '(owner_name, st) := collected in
  let owner_name := default (login cfg) owner_name in
  fetched <- _fetch_contributions_total cfg client ;;
  let '(total_contributions, warnings) := fetched in
  let total_views := 0 in
  let languages :=
    _build_language_shares cfg (st_language_totals st) (st_total_lines st) in
  Ok ({| actor_login := login cfg;
         display_name := owner_name;
         total_stars := st_total_stars st;
         total_forks := st_total_forks st;
         total_contributions := total_contributions;
         total_lines_changed := st_total_lines st;
         total_views := total_views;
         repository_count := st_repository_count st;
         languages := languages |},
      st_log st ++ warnings).

(** ** [format_number] *)

(** The digits of a natural number, as [str] writes them. *)
Definition decimal (n : N) : string :=
  NilZero.string_of_uint (N.to_uint n).

(** The [,] of the format specification, on the digits taken from the
    right: a comma goes before each digit that follows a full group of
    three. *)
Fixpoint group_reversed (reversed_digits : list ascii) (in_group : nat)
  : list ascii :=
  match reversed_digits with
  | [] => []
  | c :: rest =>
      if Nat.eqb in_group 3
      then ","%char :: c :: group_reversed rest 1
      else c :: group_reversed rest (S in_group)
  end.

(** The sign, the digits and the commas of [n]. *)
Definition with_commas (n : Z) : string :=
  let digits := list_ascii_of_string (decimal (Z.abs_N n)) in
  let grouped :=
    string_of_list_ascii (rev (group_reversed (rev digits) 0)) in
  if n <? 0 then String "-" grouped else grouped.

(** [f"{n:,}"] for an integer; [None] is the [ValueError] of an integer
    of more than [INT_MAX_STR_DIGITS] digits. *)
Definition format_int (n : Z) : option string :=
  if PyStr.INT_MAX_STR_DIGITS
     <? Z.of_nat (String.length (decimal (Z.abs_N n)))
  then None
  else Some (with_commas n).

(** [format_number(value)]: a value that [int] rejects, or that the
    format rejects, gives "0". *)
Definition format_number (value : pyval) : string :=
  match py_int value with
  | Some n =>
      match format_int n with
      | Some formatted => formatted
      | None => "0"
      end
  | None => "0"
  end.

(** ** [str.replace] and the overview template *)

(** [s.replace(old, new)] for a non-empty [old]: the occurrences are
    found from the left and do not overlap; [skip] counts the characters
    of a found occurrence still to pass. *)
Fixpoint replace_from (old new : string) (skip : nat) (s : string) : string :=
  match s with
  | EmptyString => EmptyString
  | String c r =>
      match skip with
      | S k => replace_from old new k r
      | O =>
          if String.prefix old s
          then new +:+ replace_from old new (String.length old - 1) r
          else String c (replace_from old new 0 r)
      end
  end.

(** [s.replace("", new)] puts [new] around every character. *)
Fixpoint replace_empty (new s : string) : string :=
  match s with
  | EmptyString => new
  | String c r => new +:+ String c (replace_empty new r)
  end.

Definition str_replace (old new s : string) : string :=
  match old with
  | EmptyString => replace_empty new s
  | _ => replace_from old new 0 s
  end.

(** The [replacements] dictionary of [render_overview], in its order. *)
Definition overview_replacements (metrics : MetricsResult)
  : list (string * string) :=
  [ ("{{ name }}", display_name metrics);
    ("{{ stars }}", format_number (PInt (total_stars metrics)));
    ("{{ forks }}", format_number (PInt (total_forks metrics)));
    ("{{ contributions }}",
     format_number (PInt (total_contributions metrics)));
    ("{{ lines_changed }}",
     format_number (PInt (total_lines_changed metrics)));
    ("{{ views }}", format_number (PInt (total_views metrics)));
    ("{{ repos }}", format_number (PInt (repository_count metrics))) ].

(** The text that [render_overview] writes for the text of the
    template. *)
Definition render_overview_text (template : string) (metrics : MetricsResult)
  : string :=
  fold_left
    (fun output replacement =>
       str_replace (fst replacement) (snd replacement) output)
    (overview_replacements metrics) template.

(** ** Sample data *)

Module Samples.

Definition edge (n : string) (size : Z) (color : option string) : Edge :=
  {| edge_size := PInt size;
     edge_node := {| lang_name := Some n; lang_color := color |} |}.

Definition last_page : PageInfo :=
  {| hasNextPage := false; endCursor := None |}.

Definition more_after (cursor : string) : PageInfo :=
  {| hasNextPage := true; endCursor := Some cursor |}.

Definition repo (n nwo : string) (stars forks : Z) (es : list Edge)
    (pi : PageInfo) : RepositoryNode :=
  {| name := Some n; nameWithOwner := Some nwo;
     stargazerCount := Some stars; forkCount := Some forks;
     isFork := Some false;
     node_languages := {| edges := es; languages_pageInfo := pi |} |}.

Definition answer {D} (d : D) : Exchange D :=
  Responded {| status_code := 200; http_error := ""; text := "";
               json := Some (Object (PList []) (Some d)) |}.

Definition status_only {D} (status : Z) (body : option (Payload D))
  : Exchange D :=
  Responded {| status_code := status; http_error := "error";
               text := "body"; json := body |}.

Definition owner_page (ns : list RepositoryNode) (pi : PageInfo)
  : Exchange RepositoriesData :=
  answer {| repositoryOwner :=
              Some {| owner_login := Some "octo";
                      owner_display_name := Some "Octo Cat";
                      repositories := {| nodes := ns; pageInfo := pi |} |} |}.

Definition languages_page (es : list Edge) (pi : PageInfo)
  : Exchange LanguagesData :=
  answer {| repository_languages :=
              {| edges := es; languages_pageInfo := pi |} |}.

Definition contributions (v : pyval) : Exchange ContributionsData :=
  answer {| user := Some {| contributionsCollection :=
              {| contributionCalendar := {| totalContributions := v |} |} |} |}.

Definition config (repos langs : gset string) (limit : Z) : Config :=
  {| login := "octo"; token := "secret";
     excluded_repos := repos; excluded_languages := langs;
     exclude_forked := true; languages_limit := limit;
     templates_dir := "/app/templates"; output_dir := "/app/stats" |}.

(** Repository A with Go 400 and Python 100, and repository B with Go
    9999. *)
Definition repo_a : RepositoryNode :=
  repo "A" "octo/A" 3 1
    [edge "Go" 400 (Some "#00ADD8"); edge "Python" 100 (Some "#3572A5")]
    last_page.

Definition repo_b : RepositoryNode :=
  repo "B" "octo/B" 50 7 [edge "Go" 9999 (Some "#00ADD8")] last_page.

Definition single_page (ns : list RepositoryNode) (c : Exchange ContributionsData)
  : GraphQLClient :=
  {| post_repositories := fun _ => owner_page ns last_page;
     post_languages := fun _ => languages_page [] last_page;
     post_contributions := fun _ => c |}.

Definition client_ab : GraphQLClient :=
  single_page [repo_a; repo_b] (contributions (PInt 42)).

(** A repository whose languages come in three pages. *)
Definition repo_paged : RepositoryNode :=
  repo "P" "octo/P" 1 0
    [edge "Go" 400 (Some "#00ADD8"); edge "HTML" 70 None]
    (more_after "c1").

Definition repo_whole : RepositoryNode :=
  repo "P" "octo/P" 1 0
    [edge "Go" 400 (Some "#00ADD8"); edge "HTML" 70 None;
     edge "Python" 100 (Some "#3572A5"); edge "Go" 5 None;
     edge "C" 30 (Some "#555555")]
    last_page.

Definition paged_languages (v : LanguagesVariables) : Exchange LanguagesData :=
  if String.eqb (lv_cursor v) "c1"
  then languages_page [edge "Python" 100 (Some "#3572A5"); edge "Go" 5 None]
         (more_after "c2")
  else languages_page [edge "C" 30 (Some "#555555")] last_page.

Definition client_paged : GraphQLClient :=
  {| post_repositories := fun _ => owner_page [repo_paged] last_page;
     post_languages := paged_languages;
     post_contributions := fun _ => contributions (PInt 0) |}.

(** Two repositories with the same language: the first reports no
    colour for it, the second does. *)
Definition repo_plain : RepositoryNode :=
  repo "one" "octo/one" 0 0 [edge "Python" 10 None] last_page.

Definition repo_coloured : RepositoryNode :=
  repo "two" "octo/two" 0 0 [edge "Python" 20 (Some "#3572A5")] last_page.

Definition client_colours : GraphQLClient :=
  single_page [repo_plain; repo_coloured] (contributions (PInt 0)).

(** A repository whose largest language is HTML. *)
Definition repo_web : RepositoryNode :=
  repo "web" "octo/web" 2 0
    [edge "HTML" 9000 (Some "#e34c26"); edge "Go" 400 (Some "#00ADD8");
     edge "Python" 100 (Some "#3572A5")]
    last_page.

Definition client_web : GraphQLClient :=
  single_page [repo_web] (contributions (PInt 7)).

(** The contributions query answered with a server error, and not
    answered at all. *)
Definition client_contributions_down : GraphQLClient :=
  single_page [repo_a] (status_only 502 None).

Definition client_contributions_offline : GraphQLClient :=
  single_page [repo_a] (ConnectionFailed "timed out").

Definition mk_share (n : string) (size : Z) (color : string) : LanguageShare :=
  {| ls_name := n; ls_size := size; ls_color := color; ls_percent := 0 |}.

(** No repository at all. *)
Definition client_empty : GraphQLClient :=
  single_page [] (contributions (PInt 0)).

Definition env_minimal (k : string) : option string :=
  if String.eqb k "GITHUB_ACTOR" then Some "octo"
  else if String.eqb k "ACCESS_TOKEN" then Some "secret"
  else None.

End Samples.

(** ** Vocabulary of the statements *)

Definition size_of (item : string * Bucket) : Z := b_size (snd item).

(** Sizes never increase along the list. *)
Definition descending (sizes : list Z) : Prop := StronglySorted Z.ge sizes.

(** The sum of the sizes held by the dictionary. *)
Fixpoint dict_sum (d : list (string * Bucket)) : Z :=
  match d with
  | [] => 0
  | item :: rest => size_of item + dict_sum rest
  end.


Fixpoint sizes_sum (shares : list LanguageShare) : Z :=
  match shares with
  | [] => 0
  | share :: rest => ls_size share + sizes_sum rest
  end.

(** The accepted edges of a list of edges, in order. *)
Definition accepted (cfg : Config) (edges : list Edge) : list LanguageShare :=
  omap (accept_edge cfg) edges.

(** The sizes of the accepted edges of all the repositories the run
    counted: one [LogRepo] line per counted repository. *)
Fixpoint logged_sizes (log : list LogRecord) : Z :=
  match log with
  | [] => 0
  | LogRepo _ _ _ filtered_languages :: rest =>
      sizes_sum filtered_languages + logged_sizes rest
  | _ :: rest => logged_sizes rest
  end.

(** The number of repository lines of the log. *)
Fixpoint logged_repositories (log : list LogRecord) : Z :=
  match log with
  | [] => 0
  | LogRepo _ _ _ _ :: rest => 1 + logged_repositories rest
  | _ :: rest => logged_repositories rest
  end.

(** The state without its log. *)
Definition counters (st : Totals)
  : Z * Z * Z * Z * list (string * Bucket) :=
  (st_total_stars st, st_total_forks st, st_total_lines st,
   st_repository_count st, st_language_totals st).

(** The names of a repository item as [run] computes them: [repo_name]
    and [name_with_owner] (qualified name, else the bare name). *)
Definition bare_name (node : RepositoryNode) : string :=
  str_or (name node) "".

Definition qualified_name (node : RepositoryNode) : string :=
  str_or (opt_or (nameWithOwner node) (name node)) "".

(** What the state becomes when a repository with the given complete
    list of edges is counted. *)
Definition counted (cfg : Config) (node : RepositoryNode)
    (all_edges : list Edge) (st : Totals) : Totals :=
  count_repository (qualified_name node)
    (default 0 (stargazerCount node)) (default 0 (forkCount node))
    (accepted cfg all_edges)
    (foldl (fun st share => accumulate share st) st (accepted cfg all_edges)).

(** The complete list of edges of a repository: the inline edges, and
    the edges of the continuation pages when the block announces more. *)
Definition all_edges_of (fuel : nat) (cfg : Config) (client : GraphQLClient)
    (node : RepositoryNode) : outcome (list Edge) :=
  let block := node_languages node in
  if hasNextPage (languages_pageInfo block) then
    more <- _fetch_additional_languages fuel client
              (owner_part_of cfg (qualified_name node)) (bare_name node)
              (endCursor (languages_pageInfo block)) ;;
    Ok (edges block ++ more)
  else Ok (edges block).

(** What the loops keep true of the totals. *)
Record consistent (st : Totals) : Prop := {
  lines_logged : st_total_lines st = logged_sizes (st_log st);
  lines_summed : st_total_lines st = dict_sum (st_language_totals st);
  sizes_positive : Forall (fun item => 0 < size_of item) (st_language_totals st);
  keys_distinct : NoDup (map fst (st_language_totals st));
  count_logged : st_repository_count st = logged_repositories (st_log st)
}.

(** Two outcomes that agree on everything but the log. *)
Definition same_totals (o1 o2 : outcome Totals) : Prop :=
  match o1, o2 with
  | Ok st1, Ok st2 => counters st1 = counters st2
  | Raise e1, Raise e2 => e1 = e2
  | OutOfFuel, OutOfFuel => True
  | _, _ => False
  end.

(** The condition under which the specification has an edge skipped: the
    name is absent, its lower-case form is excluded, the size does not
    convert to an integer, or the converted size is not positive. *)
Definition skip_condition_as_specified (cfg : Config) (edge : Edge) : Prop :=
  lang_name (edge_node edge) = None
  \/ (exists n, lang_name (edge_node edge) = Some n
                /\ PyStr.lower n ∈ excluded_languages cfg)
  \/ py_int (edge_size edge) = None
  \/ (exists z, py_int (edge_size edge) = Some z /\ z <= 0).

(** The continuation pages of the languages of a repository, as the
    language cursor leads from one to the next: the loop of
    [_fetch_additional_languages] seen page by page. *)
Fixpoint continuation_pages (fuel : nat) (client : GraphQLClient)
    (owner name : string) (next_cursor : option string)
  : outcome (list LanguagesBlock) :=
  if negb (str_truthy next_cursor) then Ok []
  else
    match fuel with
    | O => OutOfFuel
    | S fuel' =>
        data <- execute (post_languages client
                           {| lv_owner := owner; lv_name := name;
                              lv_cursor := str_or next_cursor "" |}) ;;
        let block := repository_languages data in
        rest <- continuation_pages fuel' client owner name
                  (if hasNextPage (languages_pageInfo block)
                   then endCursor (languages_pageInfo block) else None) ;;
        Ok (block :: rest)
    end.

(** The same repository item, had all its edges arrived inline. *)
Definition in_one_page (node : RepositoryNode) (more : list Edge)
  : RepositoryNode :=
  {| name := name node;
     nameWithOwner := nameWithOwner node;
     stargazerCount := stargazerCount node;
     forkCount := forkCount node;
     isFork := isFork node;
     node_languages :=
       {| edges := edges (node_languages node) ++ more;
          languages_pageInfo :=
            {| hasNextPage := false; endCursor := None |} |} |}.

(** A network- or HTTP-level failure as the specification counts them:
    no response at all, or a response whose status is not 2xx. *)
Definition network_failure {D} (exchange : Exchange D) : Prop :=
  match exchange with
  | ConnectionFailed _ => True
  | Responded response =>
      ~ (200 <= status_code response < 300)
  end.

(** An entry of an [errors] list as GraphQL writes it: an object whose
    [message] is a string, or that has no [message]; [text] is what the
    error message of the executor shows for it. *)
Definition readable_entry (entry : pyval) (text : string) : Prop :=
  exists items,
    entry = PDict items
    /\ (py_get "message" items = Some (PStr text)
        \/ (py_get "message" items = None /\ text = "unknown error")).





(** An exception of the interpreter, which no handler of the source
    names. *)
Definition interpreter_error (e : exn) : Prop :=
  e = TypeError \/ e = AttributeError.

(** The same response with another status. *)
Definition with_status {D} (status : Z) (response : Response D) : Response D :=
  {| status_code := status; http_error := http_error response;
     text := text response; json := json response |}.

(** When the text of LANGS_LIMIT is acceptable: unset or empty, or a
    positive integer. *)
Definition valid_limit (raw : option string) : Prop :=
  str_truthy raw = false
  \/ exists n, PyStr.to_int (str_or raw "") = Some n /\ 0 < n.

(** The accepted edges of the counted repositories, in the order in
    which the run met them. *)
Fixpoint logged_shares (log : list LogRecord) : list LanguageShare :=
  match log with
  | [] => []
  | LogRepo _ _ _ filtered_languages :: rest =>
      filtered_languages ++ logged_shares rest
  | _ :: rest => logged_shares rest
  end.



(** The names of a list in the order of their first occurrence, leaving
    out those already [seen]. *)
Fixpoint first_seen (seen names : list string) : list string :=
  match names with
  | [] => []
  | n :: rest =>
      if str_in n seen then first_seen seen rest
      else n :: first_seen (seen ++ [n]) rest
  end.

(** The dictionary built from a list of accepted shares. *)
Definition merge_all (d : list (string * Bucket))
    (shares : list LanguageShare) : list (string * Bucket) :=
  foldl (fun d share =>
           merge_language (ls_size share) (ls_name share) (ls_color share) d)
    d shares.

(** The state is the one the logged shares produce. *)
Record traced (cfg : Config) (st : Totals) : Prop := {
  totals_traced :
    st_language_totals st = merge_all [] (logged_shares (st_log st));
  shares_accepted :
    Forall (fun share => exists edge, accept_edge cfg edge = Some share)
      (logged_shares (st_log st))
}.

(** The message of the error raised when the owner is missing. *)
Definition not_found_message (cfg : Config) : string :=
  "GitHub owner '" +:+ login cfg +:+ "' was not found or is not accessible.".

(** An error that a query execution can raise. *)
Definition query_error (e : exn) : Prop :=
  (exists msg, e = GitHubAPIError msg)
  \/ (exists reason, e = RequestException reason)
  \/ interpreter_error e.

(** The repository pages as the repository cursor leads from one to the
    next, from the page asked for with [cursor]. *)
Fixpoint repository_pages (fuel : nat) (cfg : Config) (client : GraphQLClient)
    (cursor : option string) : outcome (list Repositories) :=
  match fuel with
  | O => OutOfFuel
  | S fuel' =>
      data <- execute (post_repositories client
                         (repositories_variables cfg cursor)) ;;
      match repositoryOwner data with
      | None => Raise (ConfigError (not_found_message cfg))
      | Some owner =>
          let page := repositories owner in
          if hasNextPage (pageInfo page) then
            rest <- repository_pages fuel' cfg client
                      (endCursor (pageInfo page)) ;;
            Ok (page :: rest)
          else Ok [page]
      end
  end.

(** A repository item that the run counts: it has a name and is not
    excluded. *)
Definition is_counted (cfg : Config) (node : RepositoryNode) : bool :=
  str_truthy (name node)
  && negb (is_excluded_repo cfg (bare_name node) (qualified_name node)).

Definition stars_of (node : RepositoryNode) : Z :=
  default 0 (stargazerCount node).

Definition forks_of (node : RepositoryNode) : Z :=
  default 0 (forkCount node).

Fixpoint total_of (f : RepositoryNode -> Z) (ns : list RepositoryNode) : Z :=
  match ns with
  | [] => 0
  | node :: rest => f node + total_of f rest
  end.

(** A string with its commas taken out. *)
Fixpoint without_commas (s : string) : string :=
  match s with
  | EmptyString => EmptyString
  | String c r =>
      if Ascii.eqb c "," then without_commas r
      else String c (without_commas r)
  end.

(** The number that a sequence of decimal digits writes, after [acc]. *)
Fixpoint uint_value (d : Decimal.uint) (acc : Z) : Z :=
  match d with
  | Decimal.Nil => acc
  | Decimal.D0 l => uint_value l (10 * acc)
  | Decimal.D1 l => uint_value l (10 * acc + 1)
  | Decimal.D2 l => uint_value l (10 * acc + 2)
  | Decimal.D3 l => uint_value l (10 * acc + 3)
  | Decimal.D4 l => uint_value l (10 * acc + 4)
  | Decimal.D5 l => uint_value l (10 * acc + 5)
  | Decimal.D6 l => uint_value l (10 * acc + 6)
  | Decimal.D7 l => uint_value l (10 * acc + 7)
  | Decimal.D8 l => uint_value l (10 * acc + 8)
  | Decimal.D9 l => uint_value l (10 * acc + 9)
  end.

(** No character of the string is one that [int] strips or a comma. *)
Fixpoint plain (s : string) : bool :=
  match s with
  | EmptyString => true
  | String c r =>
      negb (PyStr.int_space c) && negb (Ascii.eqb c ",") && plain r
  end.

(** The placeholders of the overview template. *)
Inductive placeholder : Type :=
| HName | HStars | HForks | HContributions | HLinesChanged | HViews | HRepos.

Definition placeholder_text (k : placeholder) : string :=
  match k with
  | HName => "{{ name }}"
  | HStars => "{{ stars }}"
  | HForks => "{{ forks }}"
  | HContributions => "{{ contributions }}"
  | HLinesChanged => "{{ lines_changed }}"
  | HViews => "{{ views }}"
  | HRepos => "{{ repos }}"
  end.

Definition placeholder_value (metrics : MetricsResult) (k : placeholder)
  : string :=
  match k with
  | HName => display_name metrics
  | HStars => format_number (PInt (total_stars metrics))
  | HForks => format_number (PInt (total_forks metrics))
  | HContributions => format_number (PInt (total_contributions metrics))
  | HLinesChanged => format_number (PInt (total_lines_changed metrics))
  | HViews => format_number (PInt (total_views metrics))
  | HRepos => format_number (PInt (repository_count metrics))
  end.

(** A template as a sequence of literal texts and placeholders. *)
Inductive segment : Type :=
| Lit (s : string)
| Hole (k : placeholder).

Definition segment_text (seg : segment) : string :=
  match seg with
  | Lit s => s
  | Hole k => placeholder_text k
  end.

Fixpoint template_text (segments : list segment) : string :=
  match segments with
  | [] => EmptyString
  | seg :: rest => segment_text seg +:+ template_text rest
  end.

(** The template with the value of each placeholder in its place. *)
Fixpoint filled (metrics : MetricsResult) (segments : list segment) : string :=
  match segments with
  | [] => EmptyString
  | Lit s :: rest => s +:+ filled metrics rest
  | Hole k :: rest => placeholder_value metrics k +:+ filled metrics rest
  end.

(** The text has no opening brace. *)
Definition no_brace (s : string) : bool := negb (PyStr.contains "{" s).

Definition literal_ok (seg : segment) : Prop :=
  match seg with
  | Lit s => no_brace s = true
  | Hole _ => True
  end.

(** One pass of the rendering loop on the segments: the placeholder [k]
    becomes the literal text [v]. *)
Definition fill_one (k : placeholder) (v : string) (seg : segment) : segment :=
  match seg, k with
  | Hole HName, HName | Hole HStars, HStars | Hole HForks, HForks
  | Hole HContributions, HContributions
  | Hole HLinesChanged, HLinesChanged
  | Hole HViews, HViews | Hole HRepos, HRepos => Lit v
  | _, _ => seg
  end.

(** * Properties *)

(** ** The builtins on examples *)

Example to_int_examples :
  map PyStr.to_int
    [" 5 "; "-5"; "1_000"; "_1"; "1_"; "1__0"; "007"; ""; "+"; "5.0"]
  = [Some 5; Some (-5); Some 1000; None; None; None; Some 7; None; None; None].
Proof. reflexivity. Qed.

Example split_examples :
  PyStr.split "," "" = [""] /\ PyStr.split "," "a,,b" = ["a"; ""; "b"]
  /\ PyStr.split "," "," = [""; ""].
Proof. repeat split. Qed.

Example strip_lower_example : PyStr.lower (PyStr.strip "  Yes ") = "yes".
Proof. reflexivity. Qed.

Example join_example :
  PyStr.join ", " ["first"; "second"; "third"] = "first, second, third".
Proof. reflexivity. Qed.

(** ** Outcomes *)

Lemma bind_Ok {A B} (m : outcome A) (k : A -> outcome B) (b : B) :
  bind m k = Ok b -> exists a, m = Ok a /\ k a = Ok b.
Proof. destruct m as [a | e |]; simpl; intros H; try discriminate; eauto. Qed.

Ltac inv_bind H :=
  let a := fresh "a" in
  let Ha := fresh "Ha" in
  apply bind_Ok in H; destruct H as (a & Ha & H).

(** ** The language shares *)

Lemma insert_desc_length item l :
  length (insert_desc item l) = S (length l).
Proof.
  induction l as [| y rest IH]; simpl; [reflexivity |].
  destruct (b_size (snd y) <=? b_size (snd item)); simpl; congruence.
Qed.

Lemma sorted_desc_length l : length (sorted_desc l) = length l.
Proof.
  induction l as [| item rest IH]; simpl; [reflexivity |].
  rewrite insert_desc_length. congruence.
Qed.

Lemma insert_desc_perm item l : Permutation (insert_desc item l) (item :: l).
Proof.
  induction l as [| y rest IH]; simpl; [reflexivity |].
  destruct (b_size (snd y) <=? b_size (snd item)); [reflexivity |].
  rewrite IH. apply perm_swap.
Qed.

Lemma sorted_desc_perm l : Permutation (sorted_desc l) l.
Proof.
  induction l as [| item rest IH]; simpl; [reflexivity |].
  rewrite insert_desc_perm. by constructor.
Qed.

Lemma insert_desc_descending item l :
  descending (map size_of l) -> descending (map size_of (insert_desc item l)).
Proof.
  unfold descending.
  induction l as [| y rest IH]; simpl; intros Hs.
  - repeat constructor.
  - apply StronglySorted_inv in Hs as [Hrest Hall].
    destruct (Z.leb_spec (b_size (snd y)) (b_size (snd item))) as [Hle | Hgt].
    + simpl. constructor.
      * constructor; assumption.
      * constructor; [unfold size_of; lia |].
        eapply Forall_impl; [exact Hall |]. unfold size_of in *.
        intros z Hz. simpl in Hz. lia.
    + simpl. constructor; [by apply IH |].
      assert (Hp : Permutation (map size_of (insert_desc item rest))
                     (size_of item :: map size_of rest)).
      { change (size_of item :: map size_of rest)
          with (map size_of (item :: rest)).
        apply Permutation_map, insert_desc_perm. }
      rewrite Hp. constructor; [unfold size_of; lia | exact Hall].
Qed.

Lemma sorted_desc_descending l : descending (map size_of (sorted_desc l)).
Proof.
  induction l as [| item rest IH]; simpl.
  - constructor.
  - by apply insert_desc_descending.
Qed.

(** Among equal sizes the sort keeps the insertion order: the items of
    any one size come out as they went in. *)
Lemma insert_desc_filter (z : Z) item l :
  List.filter (fun x => size_of x =? z) (insert_desc item l)
  = List.filter (fun x => size_of x =? z) (item :: l).
Proof.
  induction l as [| y rest IH]; [reflexivity |].
  simpl insert_desc.
  destruct (Z.leb_spec (b_size (snd y)) (b_size (snd item))) as [Hle | Hgt];
    [reflexivity |].
  simpl in *. rewrite IH.
  destruct (Z.eqb_spec (size_of item) z), (Z.eqb_spec (size_of y) z);
    try reflexivity.
  unfold size_of in *. lia.
Qed.

Lemma sorted_desc_stable (z : Z) l :
  List.filter (fun x => size_of x =? z) (sorted_desc l)
  = List.filter (fun x => size_of x =? z) l.
Proof.
  induction l as [| item rest IH]; [reflexivity |].
  simpl sorted_desc. rewrite insert_desc_filter. simpl. by rewrite IH.
Qed.

(** The loop with its [break] takes a prefix of the sorted items. *)
Lemma shares_loop_take cfg total index items :
  shares_loop cfg total index items
  = map (share_of total) (take (Z.to_nat (languages_limit cfg - index)) items).
Proof.
  revert index.
  induction items as [| item rest IH]; intros index; simpl.
  - by rewrite take_nil.
  - destruct (Z.leb_spec (languages_limit cfg) index) as [Hle | Hgt].
    + replace (Z.to_nat (languages_limit cfg - index)) with O by lia.
      reflexivity.
    + replace (Z.to_nat (languages_limit cfg - index))
        with (S (Z.to_nat (languages_limit cfg - (index + 1)))) by lia.
      simpl. by rewrite IH.
Qed.

Lemma share_of_size total item : ls_size (share_of total item) = size_of item.
Proof. by destruct item. Qed.

Lemma share_of_name total item : ls_name (share_of total item) = fst item.
Proof. by destruct item. Qed.

Lemma share_of_percent total item :
  ls_percent (share_of total item) = percent_of total (size_of item).
Proof. by destruct item. Qed.

Lemma descending_take n sizes : descending sizes -> descending (take n sizes).
Proof.
  unfold descending. revert n.
  induction sizes as [| z rest IH]; intros n Hs.
  - by rewrite take_nil.
  - destruct n as [| n]; simpl; [constructor |].
    apply StronglySorted_inv in Hs as [Hrest Hall].
    constructor; [by apply IH |].
    by apply Forall_take.
Qed.

(** C2.  For every language-totals dictionary and every positive limit N,
    [_build_language_shares] returns the empty list when the grand total
    is not positive or the dictionary is empty.  Otherwise its output is
    the first N items of the dictionary sorted by descending size (the
    sort rearranges the whole dictionary, and the cut comes after it),
    each turned into a share whose percentage is size / total * 100; so
    the output is sorted by non-increasing size and has min(N, number of
    languages) entries.  The names, the sizes and the percentages of the
    output are those of these first N dictionary items, in their
    order. *)
Theorem build_language_shares_correct (cfg : Config)
    (language_totals : list (string * Bucket)) (total_lines : Z) :
  0 < languages_limit cfg ->
  let out := _build_language_shares cfg language_totals total_lines in
  let N := Z.to_nat (languages_limit cfg) in
  (total_lines <= 0 \/ language_totals = [] -> out = [])
  /\ (0 < total_lines -> language_totals <> [] ->
      out = map (share_of total_lines) (take N (sorted_desc language_totals))
      /\ Permutation (sorted_desc language_totals) language_totals
      /\ descending (map size_of (sorted_desc language_totals))
      /\ descending (map ls_size out)
      /\ length out = Nat.min N (length language_totals)
      /\ Forall (fun share =>
                   ls_percent share
                   = (inject_Z (ls_size share) / inject_Z total_lines * 100)%Q)
           out
      /\ map ls_name out = map fst (take N (sorted_desc language_totals))
      /\ map ls_size out
         = map (fun item => b_size (snd item))
             (take N (sorted_desc language_totals))
      /\ map ls_percent out
         = map (fun item =>
                  (inject_Z (b_size (snd item)) / inject_Z total_lines * 100)%Q)
             (take N (sorted_desc language_totals))).
Proof.
  intros Hlimit out N. subst out N. unfold _build_language_shares. split.
  - intros [Hle | Hnil].
    + destruct (Z.leb_spec total_lines 0); [reflexivity | lia].
    + subst. by rewrite orb_true_r.
  - intros Hpos Hne.
    destruct (Z.leb_spec total_lines 0) as [| _]; [lia |].
    destruct language_totals as [| item rest] eqn:E; [congruence |].
    rewrite <- E in *. clear E Hne. cbn [orb].
    rewrite shares_loop_take, Z.sub_0_r.
    set (sorted := sorted_desc language_totals).
    assert (Hsizes : map ls_size (map (share_of total_lines)
                                    (take (Z.to_nat (languages_limit cfg)) sorted))
                     = take (Z.to_nat (languages_limit cfg)) (map size_of sorted)).
    { rewrite map_map. change map with (@fmap list _) at 2.
      rewrite <- fmap_take. apply map_ext. intros x. apply share_of_size. }
    split; [reflexivity |].
    split; [apply sorted_desc_perm |].
    split; [apply sorted_desc_descending |].
    split; [rewrite Hsizes; apply descending_take, sorted_desc_descending |].
    split.
    { rewrite length_map, length_take. subst sorted.
      by rewrite sorted_desc_length. }
    split.
    + apply Forall_forall. intros share Hin.
      apply list_elem_of_In, in_map_iff in Hin as (item' & <- & _).
      rewrite share_of_percent, share_of_size. unfold percent_of.
      destruct (Z.eqb_spec total_lines 0); [lia | reflexivity].
    + split; [| split]; rewrite map_map; apply map_ext; intros [n [size color]].
      * reflexivity.
      * reflexivity.
      * cbn. unfold percent_of.
        destruct (Z.eqb_spec total_lines 0); [lia | reflexivity].
Qed.

Lemma build_language_shares_witness :
  let cfg := Samples.config ∅ ∅ 2 in
  let totals := [("Python", {| b_size := 100; b_color := "#3572A5" |});
                 ("Go", {| b_size := 400; b_color := "#00ADD8" |});
                 ("C", {| b_size := 30; b_color := "" |})] in
  map ls_name (_build_language_shares cfg totals 530) = ["Go"; "Python"]
  /\ map ls_size (_build_language_shares cfg totals 530) = [400; 100]
  /\ map ls_percent (_build_language_shares cfg totals 530)
     = [(40000 # 530)%Q; (10000 # 530)%Q]
  /\ length (_build_language_shares cfg totals 530) = 2%nat
  /\ descending (map ls_size (_build_language_shares cfg totals 530))
  /\ _build_language_shares cfg [] 530 = [].
Proof.
  intros cfg totals.
  assert (Hlimit : 0 < languages_limit cfg) by (vm_compute; reflexivity).
  destruct (build_language_shares_correct cfg totals 530 Hlimit) as [_ Hfull].
  destruct (build_language_shares_correct cfg [] 530 Hlimit) as [Hempty _].
  assert (Hpos : 0 < 530) by lia.
  assert (Hne : totals <> []) by discriminate.
  destruct (Hfull Hpos Hne)
    as (_ & _ & _ & Hdesc & Hlen & _ & Hnames & Hsizes & Hpercents).
  split; [rewrite Hnames; reflexivity |].
  split; [rewrite Hsizes; reflexivity |].
  split; [rewrite Hpercents; reflexivity |].
  split; [exact Hlen |].
  split; [exact Hdesc |].
  apply Hempty. right. reflexivity.
Defined.

(** ** The dictionary *)

Lemma dict_sum_app d1 d2 : dict_sum (d1 ++ d2) = dict_sum d1 + dict_sum d2.
Proof. induction d1 as [| item rest IH]; simpl; lia. Qed.

Lemma dict_get_app_None k d1 d2 :
  dict_get k d1 = None -> dict_get k (d1 ++ d2) = dict_get k d2.
Proof.
  induction d1 as [| [k' b] rest IH]; simpl; [done |].
  destruct (String.eqb k' k); [discriminate | exact IH].
Qed.

Lemma dict_get_app_Some k d1 d2 b :
  dict_get k d1 = Some b -> dict_get k (d1 ++ d2) = Some b.
Proof.
  induction d1 as [| [k' b'] rest IH]; simpl; [discriminate |].
  destruct (String.eqb k' k); [done | exact IH].
Qed.


Lemma dict_get_None_keys k d : dict_get k d = None -> ~ In k (map fst d).
Proof.
  induction d as [| [k' b'] rest IH]; simpl; [tauto |].
  destruct (String.eqb_spec k' k) as [-> | Hne]; [discriminate |].
  intros H [Heq | Hin]; [congruence | by apply IH].
Qed.

Lemma setdefault_get k default d :
  dict_get k (setdefault k default d)
  = Some (match dict_get k d with Some b => b | None => default end).
Proof.
  unfold setdefault. destruct (dict_get k d) eqn:E; [exact E |].
  rewrite dict_get_app_None by exact E. simpl. by rewrite String.eqb_refl.
Qed.

Lemma setdefault_sum k default d :
  dict_sum (setdefault k default d)
  = dict_sum d + match dict_get k d with Some _ => 0 | None => b_size default end.
Proof.
  unfold setdefault. destruct (dict_get k d); [lia |].
  rewrite dict_sum_app. simpl. unfold size_of. simpl. lia.
Qed.

Lemma dict_update_sum k f d b :
  dict_get k d = Some b ->
  dict_sum (dict_update k f d) = dict_sum d - b_size b + b_size (f b).
Proof.
  induction d as [| [k' b'] rest IH]; simpl; [discriminate |].
  destruct (String.eqb k' k).
  - intros [= ->]. simpl. unfold size_of. simpl. lia.
  - intros H. simpl. rewrite IH by exact H. lia.
Qed.

Lemma dict_update_keys k f d : map fst (dict_update k f d) = map fst d.
Proof.
  induction d as [| [k' b'] rest IH]; simpl; [done |].
  destruct (String.eqb k' k); simpl; congruence.
Qed.

Lemma dict_update_get k f d :
  dict_get k (dict_update k f d) = f <$> dict_get k d.
Proof.
  induction d as [| [k' b'] rest IH]; simpl; [done |].
  destruct (String.eqb k' k) eqn:E; simpl; rewrite E; [done | exact IH].
Qed.

Lemma dict_update_get_ne k k' f d :
  k <> k' -> dict_get k' (dict_update k f d) = dict_get k' d.
Proof.
  intros Hne.
  induction d as [| [k0 b0] rest IH]; simpl; [done |].
  destruct (String.eqb_spec k0 k) as [-> | Hk]; simpl.
  - by destruct (String.eqb_spec k k').
  - destruct (String.eqb k0 k'); [done | exact IH].
Qed.

Lemma setdefault_keys k default d :
  map fst (setdefault k default d)
  = map fst d ++ match dict_get k d with Some _ => [] | None => [k] end.
Proof.
  unfold setdefault. destruct (dict_get k d).
  - by rewrite app_nil_r.
  - by rewrite map_app.
Qed.

Lemma merge_bucket_size size color b :
  b_size (merge_bucket size color b) = b_size b + size.
Proof.
  unfold merge_bucket. simpl.
  by destruct (negb (PyStr.nonempty (b_color b)) && PyStr.nonempty color).
Qed.

Lemma merge_language_sum size n color d :
  dict_sum (merge_language size n color d) = dict_sum d + size.
Proof.
  unfold merge_language.
  erewrite dict_update_sum by apply setdefault_get.
  rewrite setdefault_sum, merge_bucket_size.
  destruct (dict_get n d); simpl; lia.
Qed.

Lemma merge_language_keys size n color d :
  map fst (merge_language size n color d)
  = map fst d ++ match dict_get n d with Some _ => [] | None => [n] end.
Proof. unfold merge_language. by rewrite dict_update_keys, setdefault_keys. Qed.

(** ** The edge loop *)

Lemma edges_loop_spec cfg edges filtered st :
  edges_loop cfg edges filtered st
  = (filtered ++ accepted cfg edges,
     foldl (fun st share => accumulate share st) st (accepted cfg edges)).
Proof.
  revert filtered st.
  induction edges as [| edge rest IH]; intros filtered st; simpl.
  - by rewrite app_nil_r.
  - unfold accepted in *. simpl.
    destruct (accept_edge cfg edge) as [share |]; rewrite IH; simpl.
    + by rewrite <- app_assoc.
    + done.
Qed.

Lemma accepted_app cfg es1 es2 :
  accepted cfg (es1 ++ es2) = accepted cfg es1 ++ accepted cfg es2.
Proof. unfold accepted. apply omap_app. Qed.

Lemma sizes_sum_app l1 l2 : sizes_sum (l1 ++ l2) = sizes_sum l1 + sizes_sum l2.
Proof. induction l1 as [| s rest IH]; simpl; lia. Qed.

Lemma logged_sizes_app l1 l2 :
  logged_sizes (l1 ++ l2) = logged_sizes l1 + logged_sizes l2.
Proof.
  induction l1 as [| r rest IH]; simpl; [lia |].
  destruct r; lia.
Qed.

Lemma logged_repositories_app l1 l2 :
  logged_repositories (l1 ++ l2)
  = logged_repositories l1 + logged_repositories l2.
Proof.
  induction l1 as [| r rest IH]; simpl; [lia |].
  destruct r; lia.
Qed.

Lemma accumulate_all_lines shares st :
  st_total_lines (foldl (fun st share => accumulate share st) st shares)
  = st_total_lines st + sizes_sum shares.
Proof.
  revert st. induction shares as [| s rest IH]; intros st; simpl; [lia |].
  rewrite IH. simpl. lia.
Qed.

Lemma accumulate_all_sum shares st :
  dict_sum (st_language_totals
              (foldl (fun st share => accumulate share st) st shares))
  = dict_sum (st_language_totals st) + sizes_sum shares.
Proof.
  revert st. induction shares as [| s rest IH]; intros st; simpl; [lia |].
  rewrite IH. simpl. rewrite merge_language_sum. lia.
Qed.

Lemma accumulate_all_rest shares st :
  let st' := foldl (fun st share => accumulate share st) st shares in
  st_total_stars st' = st_total_stars st
  /\ st_total_forks st' = st_total_forks st
  /\ st_repository_count st' = st_repository_count st
  /\ st_log st' = st_log st.
Proof.
  revert st. induction shares as [| s rest IH]; intros st; simpl; [done |].
  destruct (IH (accumulate s st)) as (H1 & H2 & H3 & H4). simpl in *.
  by rewrite H1, H2, H3, H4.
Qed.

(** ** One repository item *)

Lemma opt_or_truthy a b : str_truthy b = true -> str_truthy (opt_or a b) = true.
Proof. unfold opt_or. by destruct (str_truthy a) eqn:E. Qed.

(** The three ways an iteration of the repository loop goes. *)
Lemma process_node_unnamed fuel cfg client st node :
  str_truthy (name node) = false ->
  process_node fuel cfg client st node = Ok st.
Proof. intros H. unfold process_node. by rewrite H. Qed.

Lemma process_node_excluded fuel cfg client st node :
  str_truthy (name node) = true ->
  is_excluded_repo cfg (bare_name node) (qualified_name node) = true ->
  process_node fuel cfg client st node
  = Ok (log_record (LogSkipping (qualified_name node)) st).
Proof.
  intros Hname Hex. unfold process_node.
  rewrite Hname. simpl. fold (bare_name node) (qualified_name node).
  by rewrite Hex.
Qed.

Lemma process_node_counted fuel cfg client st node :
  str_truthy (name node) = true ->
  is_excluded_repo cfg (bare_name node) (qualified_name node) = false ->
  process_node fuel cfg client st node
  = (all_edges <- all_edges_of fuel cfg client node ;;
     Ok (counted cfg node all_edges st)).
Proof.
  intros Hname Hex. unfold process_node, all_edges_of.
  rewrite Hname. simpl. fold (bare_name node) (qualified_name node).
  rewrite Hex, (opt_or_truthy _ _ Hname), andb_true_r.
  destruct (hasNextPage (languages_pageInfo (node_languages node))).
  - destruct (_fetch_additional_languages fuel client
                (owner_part_of cfg (qualified_name node)) (bare_name node)
                (endCursor (languages_pageInfo (node_languages node))))
      as [more | e |]; simpl; [| done | done].
    by rewrite edges_loop_spec.
  - simpl. by rewrite edges_loop_spec.
Qed.

Lemma process_node_cases fuel cfg client st node st' :
  process_node fuel cfg client st node = Ok st' ->
  (str_truthy (name node) = false /\ st' = st)
  \/ (str_truthy (name node) = true
      /\ is_excluded_repo cfg (bare_name node) (qualified_name node) = true
      /\ st' = log_record (LogSkipping (qualified_name node)) st)
  \/ (str_truthy (name node) = true
      /\ is_excluded_repo cfg (bare_name node) (qualified_name node) = false
      /\ exists all_edges,
          all_edges_of fuel cfg client node = Ok all_edges
          /\ st' = counted cfg node all_edges st).
Proof.
  intros H.
  destruct (str_truthy (name node)) eqn:Hname.
  - destruct (is_excluded_repo cfg (bare_name node) (qualified_name node))
      eqn:Hex.
    + rewrite process_node_excluded in H by done.
      right; left. by inversion H.
    + rewrite process_node_counted in H by done.
      inv_bind H. right; right. repeat split; try done.
      exists a. split; [done | by inversion H].
  - rewrite process_node_unnamed in H by done. left. by inversion H.
Qed.

(** ** Invariants of the loops *)

Section LoopInvariant.

Variable cfg : Config.
Variable client : GraphQLClient.
Variable Inv : Totals -> Prop.

Hypothesis Inv_skip :
  forall nwo st, Inv st -> Inv (log_record (LogSkipping nwo) st).
Hypothesis Inv_counted :
  forall node all_edges st, Inv st -> Inv (counted cfg node all_edges st).

Lemma process_node_inv fuel st node st' :
  Inv st -> process_node fuel cfg client st node = Ok st' -> Inv st'.
Proof.
  intros Hst H.
  apply process_node_cases in H
    as [(_ & ->) | [(_ & _ & ->) | (_ & _ & es & _ & ->)]]; auto.
Qed.

Lemma nodes_loop_inv fuel ns st st' :
  Inv st -> nodes_loop fuel cfg client ns st = Ok st' -> Inv st'.
Proof.
  revert st. induction ns as [| node rest IH]; intros st Hst H; simpl in H.
  - by inversion H; subst.
  - inv_bind H. eapply IH; [| exact H]. eapply process_node_inv; eauto.
Qed.

Lemma repositories_loop_inv fuel owner_name cursor st owner_name' st' :
  Inv st ->
  repositories_loop fuel cfg client owner_name cursor st
  = Ok (owner_name', st') ->
  Inv st'.
Proof.
  revert owner_name cursor st.
  induction fuel as [| fuel IH]; intros owner_name cursor st Hst H;
    simpl in H; [discriminate |].
  inv_bind H.
  destruct (repositoryOwner a) as [owner |]; [| discriminate].
  inv_bind H.
  assert (Inv a0) by (eapply nodes_loop_inv; eauto).
  destruct (hasNextPage (pageInfo (repositories owner))).
  - eapply IH; eauto.
  - by inversion H; subst.
Qed.

Lemma collect_inv fuel owner_name st :
  Inv initial_totals ->
  collect fuel cfg client = Ok (owner_name, st) -> Inv st.
Proof. intros H0 H. eapply repositories_loop_inv; eauto. Qed.

End LoopInvariant.

(** ** The grand total *)

Lemma merge_language_nil size n color :
  merge_language size n color []
  = [(n, merge_bucket size color
           {| b_size := 0;
              b_color := str_or (Some color) DEFAULT_LANGUAGE_COLOR |})].
Proof. unfold merge_language, setdefault. simpl. by rewrite String.eqb_refl. Qed.

Lemma merge_language_cons size n color k b rest :
  merge_language size n color ((k, b) :: rest)
  = if String.eqb k n then (k, merge_bucket size color b) :: rest
    else (k, b) :: merge_language size n color rest.
Proof.
  unfold merge_language, setdefault. simpl.
  destruct (String.eqb k n) eqn:E.
  - simpl. by rewrite E.
  - destruct (dict_get n rest); simpl; by rewrite E.
Qed.

Lemma merge_language_positive size n color d :
  0 < size ->
  Forall (fun item => 0 < size_of item) d ->
  Forall (fun item => 0 < size_of item) (merge_language size n color d).
Proof.
  intros Hsize. induction d as [| [k b] rest IH]; intros Hd.
  - rewrite merge_language_nil. constructor; [| constructor].
    unfold size_of. simpl. rewrite merge_bucket_size. simpl. lia.
  - rewrite merge_language_cons. apply Forall_cons in Hd as [Hb Hrest].
    destruct (String.eqb k n).
    + constructor; [| exact Hrest].
      unfold size_of in *. simpl in *. rewrite merge_bucket_size. lia.
    + constructor; [exact Hb | by apply IH].
Qed.

Lemma merge_language_NoDup size n color d :
  NoDup (map fst d) -> NoDup (map fst (merge_language size n color d)).
Proof.
  intros Hd. rewrite merge_language_keys.
  destruct (dict_get n d) eqn:E.
  - by rewrite app_nil_r.
  - apply NoDup_app. split; [exact Hd |]. split.
    + intros x Hx Hn. apply list_elem_of_In in Hx.
      apply list_elem_of_singleton in Hn as ->.
      by apply dict_get_None_keys in E.
    + apply NoDup_singleton.
Qed.

Lemma accept_edge_positive cfg edge share :
  accept_edge cfg edge = Some share -> 0 < ls_size share.
Proof.
  unfold accept_edge. intros H.
  destruct (lang_name (edge_node edge)) as [n |]; [| discriminate].
  destruct (negb (PyStr.nonempty n)); [discriminate |].
  destruct (bool_decide _); [discriminate |].
  destruct (py_int _) as [size |]; [| discriminate].
  destruct (Z.leb_spec size 0); [discriminate |].
  inversion H; subst. simpl. lia.
Qed.

Lemma accepted_positive cfg edges :
  Forall (fun share => 0 < ls_size share) (accepted cfg edges).
Proof.
  apply Forall_forall. intros share Hin.
  apply list_elem_of_omap in Hin as (edge & _ & H).
  by eapply accept_edge_positive.
Qed.

Lemma accumulate_all_positive shares st :
  Forall (fun share => 0 < ls_size share) shares ->
  Forall (fun item => 0 < size_of item) (st_language_totals st) ->
  Forall (fun item => 0 < size_of item)
    (st_language_totals (foldl (fun st share => accumulate share st) st shares)).
Proof.
  revert st. induction shares as [| s rest IH]; intros st Hs Hst; simpl;
    [done |].
  apply Forall_cons in Hs as [Hs Hrest].
  apply IH; [done |]. simpl. by apply merge_language_positive.
Qed.

Lemma accumulate_all_NoDup shares st :
  NoDup (map fst (st_language_totals st)) ->
  NoDup (map fst (st_language_totals
                    (foldl (fun st share => accumulate share st) st shares))).
Proof.
  revert st. induction shares as [| s rest IH]; intros st Hst; simpl; [done |].
  apply IH. simpl. by apply merge_language_NoDup.
Qed.

Lemma consistent_initial : consistent initial_totals.
Proof. split; simpl; try done; constructor. Qed.

Lemma consistent_skip nwo st :
  consistent st -> consistent (log_record (LogSkipping nwo) st).
Proof.
  intros [H1 H2 H3 H4 H5]. split; simpl; try done.
  - rewrite logged_sizes_app, H1. simpl. lia.
  - rewrite logged_repositories_app, H5. simpl. lia.
Qed.

Lemma consistent_counted cfg node all_edges st :
  consistent st -> consistent (counted cfg node all_edges st).
Proof.
  intros [H1 H2 H3 H4 H5]. unfold counted.
  set (shares := accepted cfg all_edges).
  destruct (accumulate_all_rest shares st) as (_ & _ & Hc & Hl).
  split; simpl.
  - rewrite Hl, logged_sizes_app, accumulate_all_lines. simpl. lia.
  - rewrite accumulate_all_lines, accumulate_all_sum. lia.
  - apply accumulate_all_positive; [apply accepted_positive | done].
  - by apply accumulate_all_NoDup.
  - rewrite Hl, Hc, logged_repositories_app. simpl. lia.
Qed.

Lemma collect_consistent fuel cfg client owner_name st :
  collect fuel cfg client = Ok (owner_name, st) -> consistent st.
Proof.
  apply collect_inv.
  - apply consistent_skip.
  - apply consistent_counted.
  - apply consistent_initial.
Qed.






(** ** The representative colour *)

Lemma accept_edge_colour cfg edge share :
  accept_edge cfg edge = Some share ->
  ls_color share = str_or (lang_color (edge_node edge)) DEFAULT_LANGUAGE_COLOR
  /\ PyStr.nonempty (ls_color share) = true.
Proof.
  unfold accept_edge. intros H.
  destruct (lang_name (edge_node edge)) as [n |]; [| discriminate].
  destruct (negb (PyStr.nonempty n)); [discriminate |].
  destruct (bool_decide _); [discriminate |].
  destruct (py_int _) as [size |]; [| discriminate].
  destruct (size <=? 0); [discriminate |].
  inversion H; subst; simpl. split; [reflexivity |].
  unfold str_or. destruct (lang_color (edge_node edge)) as [c |]; [| done].
  by destruct (PyStr.nonempty c) eqn:E.
Qed.

(** A bucket is created with a non-empty colour, and a non-empty colour
    is never replaced: the update guarded by [not bucket.get("color")]
    cannot fire. *)
Lemma merge_bucket_colour size color b :
  PyStr.nonempty (b_color b) = true ->
  b_color (merge_bucket size color b) = b_color b.
Proof. intros H. unfold merge_bucket. simpl. by rewrite H. Qed.

Lemma merge_language_first_colour size n color d :
  dict_get n d = None ->
  dict_get n (merge_language size n color d)
  = Some {| b_size := size;
            b_color := str_or (Some color) DEFAULT_LANGUAGE_COLOR |}.
Proof.
  intros Hnone. unfold merge_language.
  rewrite dict_update_get, setdefault_get, Hnone.
  assert (Hcol : PyStr.nonempty (str_or (Some color) DEFAULT_LANGUAGE_COLOR)
                 = true).
  { unfold str_or. by destruct (PyStr.nonempty color) eqn:E. }
  unfold merge_bucket. cbn [fmap option_fmap option_map b_color b_size].
  by rewrite Hcol.
Qed.

Lemma merge_language_later_colour size n color d b :
  dict_get n d = Some b ->
  PyStr.nonempty (b_color b) = true ->
  dict_get n (merge_language size n color d)
  = Some {| b_size := b_size b + size; b_color := b_color b |}.
Proof.
  intros Hsome Hcol. unfold merge_language.
  rewrite dict_update_get, setdefault_get, Hsome. simpl.
  unfold merge_bucket. simpl. by rewrite Hcol.
Qed.

(** C3, on the input where it fails.  Two counted repositories report
    the language Python; the first accepted edge carries no colour, the
    second carries "#3572A5".  The colour recorded for Python is the
    default placeholder "#ededed", taken when the bucket was created, and
    not the first non-empty colour observed. *)
Theorem later_colour_is_not_recorded :
  let cfg := Samples.config ∅ ∅ 10 in
  accepted cfg (edges (node_languages Samples.repo_plain)
                ++ edges (node_languages Samples.repo_coloured))
  = [ {| ls_name := "Python"; ls_size := 10;
         ls_color := "#ededed"; ls_percent := 0 |};
      {| ls_name := "Python"; ls_size := 20;
         ls_color := "#3572A5"; ls_percent := 0 |} ]
  /\ lang_color (edge_node (Samples.edge "Python" 10 None)) = None
  /\ exists st,
      collect 1 cfg Samples.client_colours = Ok (Some "Octo Cat", st)
      /\ st_language_totals st
         = [("Python", {| b_size := 30; b_color := "#ededed" |})]
      /\ _build_language_shares cfg (st_language_totals st) (st_total_lines st)
         = [ {| ls_name := "Python"; ls_size := 30; ls_color := "#ededed";
                ls_percent := percent_of 30 30 |} ].
Proof.
  split; [vm_compute; reflexivity |]. split; [reflexivity |].
  eexists. split; [vm_compute; reflexivity |].
  split; reflexivity.
Qed.

(** ** Excluded repositories *)

Lemma accumulate_all_counters shares st1 st2 :
  counters st1 = counters st2 ->
  counters (foldl (fun st share => accumulate share st) st1 shares)
  = counters (foldl (fun st share => accumulate share st) st2 shares).
Proof.
  revert st1 st2. induction shares as [| s rest IH]; intros st1 st2 H; simpl;
    [done |].
  apply IH. unfold counters in *. simpl. congruence.
Qed.

Lemma counted_counters cfg node all_edges st1 st2 :
  counters st1 = counters st2 ->
  counters (counted cfg node all_edges st1)
  = counters (counted cfg node all_edges st2).
Proof.
  intros H. unfold counted.
  apply (accumulate_all_counters (accepted cfg all_edges)) in H.
  unfold counters in *. simpl. congruence.
Qed.

Lemma same_totals_refl o : same_totals o o.
Proof. by destruct o. Qed.

Lemma process_node_same_totals fuel cfg client node st1 st2 :
  counters st1 = counters st2 ->
  same_totals (process_node fuel cfg client st1 node)
              (process_node fuel cfg client st2 node).
Proof.
  intros H.
  destruct (str_truthy (name node)) eqn:Hname.
  - destruct (is_excluded_repo cfg (bare_name node) (qualified_name node))
      eqn:Hex.
    + rewrite !process_node_excluded by done. simpl. exact H.
    + rewrite !process_node_counted by done.
      destruct (all_edges_of fuel cfg client node) as [es | e |]; simpl;
        [by apply counted_counters | done | done].
  - rewrite !process_node_unnamed by done. exact H.
Qed.

Lemma nodes_loop_same_totals fuel cfg client ns st1 st2 :
  counters st1 = counters st2 ->
  same_totals (nodes_loop fuel cfg client ns st1)
              (nodes_loop fuel cfg client ns st2).
Proof.
  revert st1 st2. induction ns as [| node rest IH]; intros st1 st2 H; simpl;
    [exact H |].
  pose proof (process_node_same_totals fuel cfg client node st1 st2 H) as Hn.
  destruct (process_node fuel cfg client st1 node),
           (process_node fuel cfg client st2 node); simpl in *; try done.
  by apply IH.
Qed.

Lemma nodes_loop_app fuel cfg client ns1 ns2 st :
  nodes_loop fuel cfg client (ns1 ++ ns2) st
  = (st' <- nodes_loop fuel cfg client ns1 st ;;
     nodes_loop fuel cfg client ns2 st').
Proof.
  revert st. induction ns1 as [| node rest IH]; intros st; simpl; [done |].
  destruct (process_node fuel cfg client st node); simpl; [apply IH | done..].
Qed.

Lemma is_excluded_repo_true cfg repo_name name_with_owner :
  PyStr.lower repo_name ∈ excluded_repos cfg
  \/ PyStr.lower name_with_owner ∈ excluded_repos cfg ->
  is_excluded_repo cfg repo_name name_with_owner = true.
Proof.
  intros H. unfold is_excluded_repo. apply bool_decide_eq_true.
  destruct H; set_solver.
Qed.

(** C4.  A repository item whose lower-cased bare name or lower-cased
    qualified name is in the excluded set is skipped: whatever the state,
    the iteration succeeds without any query and leaves the stars, the
    forks, the grand total, the repository count and the language
    dictionary as they were; and a page gives the same totals with the
    item as without it. *)
Theorem excluded_repository_contributes_nothing (fuel : nat) (cfg : Config)
    (client : GraphQLClient) (node : RepositoryNode) :
  PyStr.lower (bare_name node) ∈ excluded_repos cfg
  \/ PyStr.lower (qualified_name node) ∈ excluded_repos cfg ->
  (forall st, exists st',
      process_node fuel cfg client st node = Ok st'
      /\ st_total_stars st' = st_total_stars st
      /\ st_total_forks st' = st_total_forks st
      /\ st_total_lines st' = st_total_lines st
      /\ st_repository_count st' = st_repository_count st
      /\ st_language_totals st' = st_language_totals st)
  /\ (forall before after st,
        same_totals
          (nodes_loop fuel cfg client (before ++ node :: after) st)
          (nodes_loop fuel cfg client (before ++ after) st)).
Proof.
  intros Hex.
  assert (Hskip : forall st, exists st',
             process_node fuel cfg client st node = Ok st'
             /\ counters st' = counters st).
  { intros st. destruct (str_truthy (name node)) eqn:Hname.
    - rewrite process_node_excluded by (by try apply is_excluded_repo_true).
      by eexists.
    - rewrite process_node_unnamed by done. by eexists. }
  split.
  - intros st. destruct (Hskip st) as (st' & Hst' & Hc).
    exists st'. unfold counters in Hc. inversion Hc. by repeat split.
  - intros before after st. rewrite !nodes_loop_app.
    destruct (nodes_loop fuel cfg client before st) as [st1 | e |]; simpl;
      [| done | done].
    destruct (Hskip st1) as (st' & -> & Hc). simpl.
    by apply nodes_loop_same_totals.
Qed.

Lemma excluded_repository_witness :
  exists st',
    process_node 0 (Samples.config {["b"]} ∅ 10) Samples.client_ab
      initial_totals Samples.repo_b = Ok st'
    /\ st_total_stars st' = 0 /\ st_total_lines st' = 0
    /\ st_repository_count st' = 0 /\ st_language_totals st' = [].
Proof.
  assert (Hex : PyStr.lower (bare_name Samples.repo_b)
                  ∈ excluded_repos (Samples.config {["b"]} ∅ 10)
                \/ PyStr.lower (qualified_name Samples.repo_b)
                  ∈ excluded_repos (Samples.config {["b"]} ∅ 10)).
  { left. vm_compute. set_solver. }
  destruct (excluded_repository_contributes_nothing 0
              (Samples.config {["b"]} ∅ 10) Samples.client_ab
              Samples.repo_b Hex) as [Hnode _].
  destruct (Hnode initial_totals) as (st' & H & H1 & _ & H3 & H4 & H5).
  exists st'. by repeat split.
Defined.

(** ** Skipped edges *)

Lemma py_int_or_Some v z :
  py_int v = Some z -> py_int (py_or v (PInt 0)) = Some z.
Proof.
  unfold py_or. destruct (truthy v) eqn:T; [done |].
  destruct v as [| [] | z' | s | l | l]; simpl in *; try done.
  - intros [= <-]. destruct (Z.eqb_spec z' 0); [by subst | done].
  - destruct s; [done | discriminate].
Qed.

Lemma py_int_or_None v :
  py_int v = None ->
  py_int (py_or v (PInt 0)) = None \/ py_int (py_or v (PInt 0)) = Some 0.
Proof.
  unfold py_or. destruct (truthy v); [by left | by right].
Qed.

Lemma run_inversion fuel cfg client r log :
  run fuel cfg client = Ok (r, log) ->
  exists owner_name st total warnings,
    collect fuel cfg client = Ok (owner_name, st)
    /\ _fetch_contributions_total cfg client = Ok (total, warnings)
    /\ total_stars r = st_total_stars st
    /\ total_forks r = st_total_forks st
    /\ total_lines_changed r = st_total_lines st
    /\ repository_count r = st_repository_count st
    /\ total_contributions r = total
    /\ languages r
       = _build_language_shares cfg (st_language_totals st) (st_total_lines st)
    /\ log = st_log st ++ warnings.
Proof.
  unfold run. intros H. inv_bind H. destruct a as [owner_name st].
  inv_bind H. destruct a as [total warnings].
  inversion H; subst; simpl.
  exists owner_name, st, total, warnings. by repeat split.
Qed.

Lemma shares_names cfg d total share :
  In share (_build_language_shares cfg d total) ->
  In (ls_name share) (map fst d).
Proof.
  unfold _build_language_shares.
  destruct ((total <=? 0) || _); [done |].
  rewrite shares_loop_take. intros H.
  apply in_map_iff in H as (item & <- & Hin).
  rewrite share_of_name. apply in_map.
  apply list_elem_of_In in Hin. apply subseteq_take in Hin.
  apply list_elem_of_In in Hin.
  eapply Permutation_in; [apply sorted_desc_perm | exact Hin].
Qed.

Lemma accept_edge_not_excluded cfg edge share :
  accept_edge cfg edge = Some share ->
  PyStr.lower (ls_name share) ∉ excluded_languages cfg.
Proof.
  unfold accept_edge. intros H.
  destruct (lang_name (edge_node edge)) as [n |]; [| discriminate].
  destruct (negb (PyStr.nonempty n)); [discriminate |].
  destruct (bool_decide_reflect (PyStr.lower n ∈ excluded_languages cfg));
    [discriminate |].
  destruct (py_int _) as [size |]; [| discriminate].
  destruct (size <=? 0); [discriminate |].
  by inversion H; subst.
Qed.

Lemma accumulate_all_keys (P : string -> Prop) shares st :
  Forall (fun share => P (ls_name share)) shares ->
  Forall P (map fst (st_language_totals st)) ->
  Forall P (map fst (st_language_totals
                       (foldl (fun st share => accumulate share st) st shares))).
Proof.
  revert st. induction shares as [| s rest IH]; intros st Hs Hst; simpl;
    [done |].
  apply Forall_cons in Hs as [Hs Hrest]. apply IH; [done |]. simpl.
  rewrite merge_language_keys. apply Forall_app. split; [done |].
  destruct (dict_get _ _); by repeat constructor.
Qed.

Lemma collect_keys_not_excluded fuel cfg client owner_name st :
  collect fuel cfg client = Ok (owner_name, st) ->
  Forall (fun k => PyStr.lower k ∉ excluded_languages cfg)
    (map fst (st_language_totals st)).
Proof.
  apply (collect_inv cfg client
           (fun st => Forall (fun k => PyStr.lower k ∉ excluded_languages cfg)
                        (map fst (st_language_totals st)))).
  - by intros nwo st0 H.
  - intros node es st0 H. unfold counted. simpl.
    apply accumulate_all_keys; [| done].
    apply Forall_forall. intros share Hin.
    apply list_elem_of_omap in Hin as (edge & _ & Hacc).
    by eapply accept_edge_not_excluded.
  - constructor.
Qed.

(** C5, as the code has it.  An edge is skipped exactly when its language
    name is absent or empty, the lower-case form of the name is in the
    excluded-languages set, its size does not convert to an integer, or
    the converted size is not positive.  A skipped edge changes nothing:
    the edge loop gives the same accepted list and the same state with it
    as without it, wherever it stands among the edges of the repository.
    And no language whose lower-case name is excluded appears in the
    language list of a run, whatever its size. *)
Theorem skipped_edges (cfg : Config) :
  (forall edge,
      accept_edge cfg edge = None
      <-> (lang_name (edge_node edge) = Some ""
           \/ skip_condition_as_specified cfg edge))
  /\ (forall edge before after filtered st,
        accept_edge cfg edge = None ->
        edges_loop cfg (before ++ edge :: after) filtered st
        = edges_loop cfg (before ++ after) filtered st)
  /\ (forall fuel client r log share,
        run fuel cfg client = Ok (r, log) ->
        In share (languages r) ->
        PyStr.lower (ls_name share) ∉ excluded_languages cfg).
Proof.
  split; [| split].
  - intros edge. unfold accept_edge, skip_condition_as_specified.
    destruct (lang_name (edge_node edge)) as [n |]; [| by intuition].
    destruct (PyStr.nonempty n) eqn:Hn; simpl.
    2:{ destruct n; [| discriminate]. by intuition. }
    destruct (bool_decide_reflect (PyStr.lower n ∈ excluded_languages cfg))
      as [Hin | Hnin].
    { split; [| done]. intros _. right; right; left. eauto. }
    destruct (py_int (edge_size edge)) as [z |] eqn:Hz.
    + rewrite (py_int_or_Some _ _ Hz).
      destruct (Z.leb_spec z 0) as [Hle | Hgt].
      * split; [| done]. intros _. do 4 right. eauto.
      * split; [done |].
        intros [Hempty | [Habs | [(n' & Hn' & Hex) | [Hp | (z' & Hz' & Hle)]]]].
        -- inversion Hempty; subst. discriminate.
        -- discriminate.
        -- inversion Hn'; subst. contradiction.
        -- discriminate.
        -- inversion Hz'; subst. lia.
    + split; [| ].
      * intros _. right; right; right; left. reflexivity.
      * intros _. destruct (py_int_or_None _ Hz) as [-> | ->]; done.
  - intros edge before after filtered st Hskip.
    rewrite !edges_loop_spec, !accepted_app.
    unfold accepted at 2 5. simpl. by rewrite Hskip.
  - intros fuel client r log share Hrun Hin.
    apply run_inversion in Hrun
      as (o & st & total & w & Hcollect & _ & _ & _ & _ & _ & _ & Hl & _).
    rewrite Hl in Hin. apply shares_names in Hin.
    apply collect_keys_not_excluded in Hcollect.
    rewrite Forall_forall in Hcollect. apply Hcollect.
    by apply list_elem_of_In.
Qed.

Lemma skipped_edges_witness :
  let cfg := Samples.config ∅ {["html"]} 10 in
  let html := Samples.edge "HTML" 9000 (Some "#e34c26") in
  let go := Samples.edge "Go" 400 (Some "#00ADD8") in
  accept_edge cfg html = None
  /\ edges_loop cfg ([go] ++ html :: [go]) [] initial_totals
     = edges_loop cfg ([go] ++ [go]) [] initial_totals
  /\ exists r log,
      run 1 cfg Samples.client_web = Ok (r, log)
      /\ total_lines_changed r = 500
      /\ map ls_name (languages r) = ["Go"; "Python"]
      /\ forall share, In share (languages r) ->
                       PyStr.lower (ls_name share) ∉ excluded_languages cfg.
Proof.
  intros cfg html go.
  destruct (skipped_edges cfg) as (Hiff & Hdrop & Hrun).
  assert (Hskip : accept_edge cfg html = None).
  { apply Hiff. right. right. left. exists "HTML". split; [reflexivity |].
    vm_compute. set_solver. }
  split; [exact Hskip |].
  split; [apply Hdrop; exact Hskip |].
  eexists. eexists.
  split; [vm_compute; reflexivity |].
  split; [reflexivity |]. split; [reflexivity |].
  intros share Hin.
  eapply (Hrun 1%nat Samples.client_web); [vm_compute; reflexivity | exact Hin].
Defined.

(** C5 as stated fails on an edge whose name is present and empty: it is
    skipped, and none of the four stated conditions holds. *)
Lemma empty_name_edge_is_skipped :
  let cfg := Samples.config ∅ ∅ 10 in
  let edge := {| edge_size := PInt 5;
                 edge_node := {| lang_name := Some "";
                                 lang_color := Some "#00ADD8" |} |} in
  accept_edge cfg edge = None /\ ~ skip_condition_as_specified cfg edge.
Proof.
  intros cfg edge. split; [reflexivity |].
  intros [H | [(n & Hn & Hin) | [H | (z & Hz & Hle)]]].
  - discriminate.
  - simpl in Hin. set_solver.
  - discriminate.
  - inversion Hz; subst. lia.
Qed.

(** ** Continuation pages *)

Lemma languages_loop_pages fuel client owner name next_cursor fetched :
  languages_loop fuel client owner name next_cursor fetched
  = (pages <- continuation_pages fuel client owner name next_cursor ;;
     Ok (fetched ++ concat (map edges pages))).
Proof.
  revert next_cursor fetched.
  induction fuel as [| fuel IH]; intros next_cursor fetched; simpl.
  - destruct (str_truthy next_cursor); simpl; [done |].
    by rewrite app_nil_r.
  - destruct (str_truthy next_cursor); simpl; [| by rewrite app_nil_r].
    destruct (execute _) as [data | e |]; simpl; [| done | done].
    destruct (hasNextPage _); rewrite IH;
      destruct (continuation_pages _ _ _ _ _) as [pages | e |]; simpl;
      try done; by rewrite <- app_assoc.
Qed.

Lemma fetch_additional_languages_pages fuel client owner name cursor :
  _fetch_additional_languages fuel client owner name cursor
  = (pages <- continuation_pages fuel client owner name cursor ;;
     Ok (concat (map edges pages))).
Proof. unfold _fetch_additional_languages. apply languages_loop_pages. Qed.

(** C6.  When the language block of a repository announces more pages
    and the continuation pages are fetched by following the language
    cursor to its end, the iteration treats the repository exactly as if
    the inline edges followed by the edges of all the continuation pages,
    in order, had arrived in one page: the outcome, and so every total,
    is the same; for a counted repository the filter runs over that
    concatenation. *)
Theorem continuation_edges_are_merged (fuel : nat) (cfg : Config)
    (client : GraphQLClient) (st : Totals) (node : RepositoryNode)
    (pages : list LanguagesBlock) :
  hasNextPage (languages_pageInfo (node_languages node)) = true ->
  continuation_pages fuel client
    (owner_part_of cfg (qualified_name node)) (bare_name node)
    (endCursor (languages_pageInfo (node_languages node))) = Ok pages ->
  let more := concat (map edges pages) in
  _fetch_additional_languages fuel client
    (owner_part_of cfg (qualified_name node)) (bare_name node)
    (endCursor (languages_pageInfo (node_languages node))) = Ok more
  /\ process_node fuel cfg client st node
     = process_node fuel cfg client st (in_one_page node more)
  /\ (str_truthy (name node) = true ->
      is_excluded_repo cfg (bare_name node) (qualified_name node) = false ->
      process_node fuel cfg client st node
      = Ok (counted cfg node (edges (node_languages node) ++ more) st)).
Proof.
  intros Hnext Hpages more.
  assert (Hfetch : _fetch_additional_languages fuel client
                     (owner_part_of cfg (qualified_name node)) (bare_name node)
                     (endCursor (languages_pageInfo (node_languages node)))
                   = Ok more).
  { rewrite fetch_additional_languages_pages, Hpages. reflexivity. }
  assert (Hcounted :
            str_truthy (name node) = true ->
            is_excluded_repo cfg (bare_name node) (qualified_name node) = false ->
            process_node fuel cfg client st node
            = Ok (counted cfg node (edges (node_languages node) ++ more) st)).
  { intros Hname Hex. rewrite process_node_counted by done.
    unfold all_edges_of. by rewrite Hnext, Hfetch. }
  split; [exact Hfetch |]. split; [| exact Hcounted].
  destruct (str_truthy (name node)) eqn:Hname.
  - destruct (is_excluded_repo cfg (bare_name node) (qualified_name node))
      eqn:Hex.
    + rewrite !process_node_excluded by done. reflexivity.
    + rewrite Hcounted by done.
      rewrite process_node_counted by done. reflexivity.
  - rewrite !process_node_unnamed by done. reflexivity.
Qed.

Lemma continuation_edges_witness :
  let cfg := Samples.config ∅ ∅ 10 in
  exists st,
    process_node 2 cfg Samples.client_paged initial_totals Samples.repo_paged
    = Ok st
    /\ process_node 0 cfg Samples.client_paged initial_totals Samples.repo_whole
       = Ok st
    /\ st_total_lines st = 605
    /\ map fst (st_language_totals st) = ["Go"; "HTML"; "Python"; "C"].
Proof.
  intros cfg.
  assert (Hnext : hasNextPage
                    (languages_pageInfo (node_languages Samples.repo_paged))
                  = true) by reflexivity.
  assert (Hpages :
            continuation_pages 2 Samples.client_paged
              (owner_part_of cfg (qualified_name Samples.repo_paged))
              (bare_name Samples.repo_paged)
              (endCursor (languages_pageInfo
                            (node_languages Samples.repo_paged)))
            = Ok [ {| edges := [Samples.edge "Python" 100 (Some "#3572A5");
                                Samples.edge "Go" 5 None];
                      languages_pageInfo := Samples.more_after "c2" |};
                   {| edges := [Samples.edge "C" 30 (Some "#555555")];
                      languages_pageInfo := Samples.last_page |} ])
    by reflexivity.
  destruct (continuation_edges_are_merged 2 cfg Samples.client_paged
              initial_totals Samples.repo_paged _ Hnext Hpages)
    as (_ & Hsame & _).
  eexists. split; [rewrite Hsame; vm_compute; reflexivity |].
  split; [vm_compute; reflexivity |]. split; reflexivity.
Defined.

(** ** The query executor *)

(** C7, as the code has it.  A response whose status is a client or
    server error (400 to 599) makes [execute] fail with [GitHubAPIError],
    the message carrying the HTTP error and the body text; a response
    with any other status is treated as a 200 response is; and when the
    transport raises instead of answering, its exception leaves
    [execute] as it is, which is not an error of the API kind. *)
Theorem http_error_statuses_are_classified (D : Type) :
  (forall response : Response D,
      400 <= status_code response < 600 ->
      execute (Responded response)
      = Raise (GitHubAPIError
                 ("GitHub API HTTP error: " +:+ http_error response
                  +:+ " - " +:+ text response)))
  /\ (forall response : Response D,
        ~ (400 <= status_code response < 600) ->
        execute (Responded response)
        = execute (Responded (with_status 200 response)))
  /\ (forall reason : string,
        execute (@ConnectionFailed D reason) = Raise (RequestException reason)
        /\ is_api_error (execute (@ConnectionFailed D reason)) = false).
Proof.
  split; [| split].
  - intros response [Hlo Hhi]. unfold execute, raise_for_status.
    destruct (Z.leb_spec 400 (status_code response)); [| lia].
    destruct (Z.ltb_spec (status_code response) 600); [| lia].
    reflexivity.
  - intros response Hstatus. unfold execute, raise_for_status. simpl.
    destruct (Z.leb_spec 400 (status_code response));
      destruct (Z.ltb_spec (status_code response) 600);
      simpl; try reflexivity.
    lia.
  - intros reason. split; reflexivity.
Qed.

Lemma http_error_statuses_witness :
  execute (@Samples.status_only RepositoriesData 404 None)
  = Raise (GitHubAPIError "GitHub API HTTP error: error - body")
  /\ execute (@Samples.status_only RepositoriesData 304 None)
     = Raise (GitHubAPIError "GitHub API returned invalid JSON.").
Proof.
  destruct (http_error_statuses_are_classified RepositoriesData)
    as (Herr & Hother & _).
  split.
  - apply (Herr {| status_code := 404; http_error := "error";
                   text := "body"; json := None |}).
    simpl. lia.
  - unfold Samples.status_only. rewrite Hother; [reflexivity |].
    simpl. lia.
Defined.

(** C7 as stated fails on a connection failure: it is a network-level
    failure and [execute] lets the exception of the transport through,
    unclassified.  It fails as well on a response whose status is
    neither 2xx nor an error status and whose body is well formed:
    [execute] returns the data. *)
Lemma connection_failure_is_not_classified :
  network_failure (@ConnectionFailed ContributionsData "connection refused")
  /\ execute (@ConnectionFailed ContributionsData "connection refused")
     = Raise (RequestException "connection refused")
  /\ is_api_error
       (execute (@ConnectionFailed ContributionsData "connection refused"))
     = false
  /\ network_failure
       (Samples.status_only 304
          (Some (Object (PList []) (Some {| user := None |}))))
  /\ execute
       (Samples.status_only 304
          (Some (Object (PList []) (Some {| user := None |}))))
     = Ok {| user := None |}.
Proof.
  split; [exact I |]. split; [reflexivity |]. split; [reflexivity |].
  split; [simpl; lia | reflexivity].
Qed.

Lemma map_outcome_cases {A B} (f : A -> outcome B) (P : exn -> Prop) l :
  (forall a, (exists b, f a = Ok b) \/ (exists e, f a = Raise e /\ P e)) ->
  (exists bs, map_outcome f l = Ok bs /\ Forall2 (fun a b => f a = Ok b) l bs)
  \/ (exists e, map_outcome f l = Raise e /\ P e).
Proof.
  intros Hf. induction l as [| a rest IH]; simpl.
  - left. exists []. split; [reflexivity | constructor].
  - destruct (Hf a) as [(b & Hb) | (e & He & HP)]; rewrite ?Hb, ?He; simpl.
    + destruct IH as [(bs & Hbs & Hall) | (e & He & HP)];
        rewrite ?Hbs, ?He; simpl.
      * left. exists (b :: bs). split; [reflexivity | by constructor].
      * right. by exists e.
    + right. by exists e.
Qed.

Lemma entry_message_cases entry :
  (exists v, entry_message entry = Ok v)
  \/ (exists e, entry_message entry = Raise e /\ interpreter_error e).
Proof.
  destruct entry; simpl; eauto; right; eexists; split;
    try reflexivity; by right.
Qed.

Lemma as_str_cases v :
  (exists text, as_str v = Ok text)
  \/ (exists e, as_str v = Raise e /\ interpreter_error e).
Proof.
  destruct v; simpl; eauto; right; eexists; split;
    try reflexivity; by left.
Qed.

Lemma readable_entry_message entry v text :
  entry_message entry = Ok v -> as_str v = Ok text ->
  readable_entry entry text.
Proof.
  intros Hentry Hstr.
  destruct v; try discriminate. injection Hstr as ->.
  destruct entry; try discriminate. simpl in Hentry.
  eexists. split; [reflexivity |].
  destruct (py_get "message" _) as [v |].
  - left. congruence.
  - right. split; [reflexivity | congruence].
Qed.


(** Joining the messages either succeeds, on a list of readable entries,
    or stops on an exception of the interpreter. *)
Lemma join_messages_cases errors :
  (exists entries texts,
      errors = PList entries
      /\ Forall2 readable_entry entries texts
      /\ join_messages errors = Ok (PyStr.join ", " texts))
  \/ (exists e, join_messages errors = Raise e /\ interpreter_error e).
Proof.
  destruct errors as [| b | z | text | entries | items];
    try (right; eexists; split; [reflexivity |]; (by left) || (by right)).
  unfold join_messages.
  destruct (map_outcome_cases entry_message interpreter_error entries
              entry_message_cases)
    as [(values & -> & Hvalues) | (e & -> & He)]; [| right; by exists e].
  simpl.
  destruct (map_outcome_cases as_str interpreter_error values as_str_cases)
    as [(texts & -> & Htexts) | (e & -> & He)]; [| right; by exists e].
  left. exists entries, texts. split; [reflexivity |].
  split; [| reflexivity].
  clear -Hvalues Htexts. revert texts Htexts.
  induction Hvalues as [| entry v entries values Hentry _ IH];
    intros texts Htexts; inversion Htexts; subst; constructor.
  - by eapply readable_entry_message.
  - by apply IH.
Qed.



(** [execute] on an answer whose status is no error status and whose
    body is an object. *)
Lemma execute_object {D} (response : Response D) errors data :
  raise_for_status response = false ->
  json response = Some (Object errors data) ->
  execute (Responded response)
  = if truthy errors
    then messages <- join_messages errors ;;
         Raise (GitHubAPIError ("GitHub API error: " +:+ messages))
    else match data with
         | None =>
             Raise (GitHubAPIError "GitHub API response missing data field.")
         | Some d => Ok d
         end.
Proof.
  intros Hstatus Hjson. unfold execute. rewrite Hstatus, Hjson.
  unfold py_or. destruct (truthy errors) eqn:E; [by rewrite E |].
  reflexivity.
Qed.





(** ** The contributions total *)

(** C9, as the code has it.  When [execute] fails on the contributions
    query with [GitHubAPIError] (an error status, invalid JSON, an error
    list, no data), the failure is swallowed: the total is zero, a
    warning is logged, and a run whose repository loop succeeded returns
    its result.  On success an absent user, an absent
    [totalContributions] and a value that does not convert to an integer
    give zero, and a value that converts gives its integer value.  When
    the transport raises instead of answering, its exception is
    propagated. *)
Theorem contributions_total_outcomes (cfg : Config) (client : GraphQLClient) :
  let exchange := post_contributions client {| cv_login := login cfg |} in
  (forall msg,
      execute exchange = Raise (GitHubAPIError msg) ->
      _fetch_contributions_total cfg client
      = Ok (0, [LogContributionsFailed msg])
      /\ forall fuel owner_name st,
          collect fuel cfg client = Ok (owner_name, st) ->
          exists r,
            run fuel cfg client
            = Ok (r, st_log st ++ [LogContributionsFailed msg])
            /\ total_contributions r = 0)
  /\ (forall data,
        execute exchange = Ok data -> user data = None ->
        _fetch_contributions_total cfg client = Ok (0, []))
  /\ (forall data u,
        execute exchange = Ok data -> user data = Some u ->
        let value :=
          totalContributions (contributionCalendar (contributionsCollection u)) in
        (value = PNone -> _fetch_contributions_total cfg client = Ok (0, []))
        /\ (py_int value = None ->
            _fetch_contributions_total cfg client = Ok (0, []))
        /\ (forall n, py_int value = Some n ->
                      _fetch_contributions_total cfg client = Ok (n, [])))
  /\ (forall reason,
        exchange = ConnectionFailed reason ->
        _fetch_contributions_total cfg client
        = Raise (RequestException reason)).
Proof.
  intros exchange. unfold _fetch_contributions_total. fold exchange.
  split; [| split; [| split]].
  - intros msg Hfail. rewrite Hfail. split; [reflexivity |].
    intros fuel owner_name st Hcollect. unfold run, _fetch_contributions_total.
    fold exchange. rewrite Hcollect, Hfail. simpl. eexists. split; reflexivity.
  - intros data Hok Huser. by rewrite Hok, Huser.
  - intros data u Hok Huser. rewrite Hok, Huser. cbv zeta.
    set (value := totalContributions
                    (contributionCalendar (contributionsCollection u))).
    split; [| split].
    + intros ->. reflexivity.
    + intros Hnone.
      destruct (py_int_or_None _ Hnone) as [-> | ->]; reflexivity.
    + intros n Hn. by rewrite (py_int_or_Some _ _ Hn).
  - intros reason Hconn. by rewrite Hconn.
Qed.

Lemma contributions_total_witness :
  _fetch_contributions_total (Samples.config ∅ ∅ 10)
    Samples.client_contributions_down
  = Ok (0, [LogContributionsFailed "GitHub API HTTP error: error - body"])
  /\ (exists r log,
        run 1 (Samples.config ∅ ∅ 10) Samples.client_contributions_down
        = Ok (r, log)
        /\ total_contributions r = 0 /\ total_lines_changed r = 500)
  /\ _fetch_contributions_total (Samples.config ∅ ∅ 10) Samples.client_ab
     = Ok (42, [])
  /\ _fetch_contributions_total (Samples.config ∅ ∅ 10)
       (Samples.single_page [] (Samples.contributions (PStr "many")))
     = Ok (0, []).
Proof.
  destruct (contributions_total_outcomes (Samples.config ∅ ∅ 10)
              Samples.client_contributions_down) as (Hdown & _).
  destruct (Hdown "GitHub API HTTP error: error - body" eq_refl)
    as (Hzero & Hrun).
  split; [exact Hzero |].
  split.
  { edestruct (Hrun 1%nat) as (r & Hr & Hc); [vm_compute; reflexivity |].
    exists r. eexists. split; [exact Hr |]. split; [exact Hc |].
    vm_compute in Hr. by inversion Hr. }
  destruct (contributions_total_outcomes (Samples.config ∅ ∅ 10)
              Samples.client_ab) as (_ & _ & Hvalue & _).
  destruct (Hvalue _ _ eq_refl eq_refl) as (_ & _ & Hint).
  split; [exact (Hint 42 eq_refl) |].
  destruct (contributions_total_outcomes (Samples.config ∅ ∅ 10)
              (Samples.single_page [] (Samples.contributions (PStr "many"))))
    as (_ & _ & Hother & _).
  destruct (Hother _ _ eq_refl eq_refl) as (_ & Hnot & _).
  exact (Hnot eq_refl).
Defined.

(** C9 as stated fails when the transport raises on the contributions
    query: the failure is not swallowed, and the run ends with the
    exception of the transport. *)
Lemma contributions_connection_failure_propagates :
  let cfg := Samples.config ∅ ∅ 10 in
  post_contributions Samples.client_contributions_offline
    {| cv_login := login cfg |} = ConnectionFailed "timed out"
  /\ (exists owner_name st,
        collect 1 cfg Samples.client_contributions_offline
        = Ok (owner_name, st))
  /\ _fetch_contributions_total cfg Samples.client_contributions_offline
     = Raise (RequestException "timed out")
  /\ run 1 cfg Samples.client_contributions_offline
     = Raise (RequestException "timed out").
Proof.
  intros cfg. split; [reflexivity |].
  split; [eexists; eexists; vm_compute; reflexivity |].
  split; [reflexivity | vm_compute; reflexivity].
Qed.

(** ** The fork filter *)









(** * Further properties of the code *)

(** ** The exclusion lists *)

Lemma lower_char_idempotent c :
  PyStr.lower_char (PyStr.lower_char c) = PyStr.lower_char c.
Proof. destruct c as [[] [] [] [] [] [] [] []]; reflexivity. Qed.

Lemma lower_idempotent s : PyStr.lower (PyStr.lower s) = PyStr.lower s.
Proof.
  induction s as [| c r IH]; simpl; [done |].
  by rewrite lower_char_idempotent, IH.
Qed.

Lemma lower_nonempty s : PyStr.nonempty (PyStr.lower s) = PyStr.nonempty s.
Proof. by destruct s. Qed.

Lemma nonempty_true s : PyStr.nonempty s = true <-> s <> "".
Proof. destruct s; simpl; split; intros; congruence. Qed.

Lemma parse_csv_elem raw x :
  x ∈ parse_csv raw
  <-> exists r item,
      raw = Some r /\ In item (PyStr.split "," r)
      /\ PyStr.strip item <> "" /\ x = PyStr.lower (PyStr.strip item).
Proof.
  unfold parse_csv. destruct raw as [r |].
  - destruct (PyStr.nonempty r) eqn:Hr; simpl.
    + rewrite elem_of_list_to_set, list_elem_of_In, in_map_iff. split.
      * intros (item & <- & Hin). apply filter_In in Hin as [Hin Hne].
        exists r, item. repeat split; try done. by apply nonempty_true.
      * intros (r' & item & [= <-] & Hin & Hne & ->).
        exists item. split; [done |]. apply filter_In. split; [done |].
        by apply nonempty_true.
    + destruct r; [| discriminate]. split; [set_solver |].
      intros (r' & item & [= <-] & Hin & Hne & _). simpl in Hin.
      destruct Hin as [<- | []]. by destruct Hne.
  - split; [set_solver |]. by intros (r & item & [=] & _).
Qed.

(** X1.  Every entry of a parsed exclusion list is non-empty and in lower
    case, and it is the stripped, lower-cased form of an item of the
    comma-separated text; a missing or empty text gives the empty set. *)
Theorem parse_csv_entries (raw : option string) (x : string) :
  x ∈ parse_csv raw ->
  x <> "" /\ PyStr.lower x = x
  /\ exists r item,
      raw = Some r /\ r <> "" /\ In item (PyStr.split "," r)
      /\ x = PyStr.lower (PyStr.strip item).
Proof.
  intros Hx. apply parse_csv_elem in Hx as (r & item & -> & Hin & Hne & ->).
  split; [| split].
  - apply nonempty_true. rewrite lower_nonempty. by apply nonempty_true.
  - apply lower_idempotent.
  - exists r, item. repeat split; try done.
    intros ->. simpl in Hin. destruct Hin as [<- | []]. by destruct Hne.
Qed.

Lemma parse_csv_entries_witness :
  "octo/b" ∈ parse_csv (Some "A, Octo/B ,,c")
  /\ PyStr.lower "octo/b" = "octo/b"
  /\ parse_csv None = ∅ /\ parse_csv (Some "") = ∅.
Proof.
  assert (Hin : "octo/b" ∈ parse_csv (Some "A, Octo/B ,,c")).
  { apply parse_csv_elem. exists "A, Octo/B ,,c", " Octo/B ".
    repeat split; try done. simpl. tauto. }
  destruct (parse_csv_entries _ _ Hin) as (_ & Hlower & _).
  by repeat split.
Defined.

(** X2.  Exclusion ignores letter case and the blanks around an item: a
    named repository whose bare or qualified name equals an item of
    EXCLUDED_REPO up to case is skipped, and an edge whose language name
    equals an item of EXCLUDED_LANGS up to case is skipped. *)
Theorem exclusion_ignores_case (cfg : Config) (raw item : string) :
  In item (PyStr.split "," raw) ->
  PyStr.strip item <> "" ->
  (excluded_repos cfg = parse_csv (Some raw) ->
   forall fuel client st node,
     str_truthy (name node) = true ->
     PyStr.lower (bare_name node) = PyStr.lower (PyStr.strip item)
     \/ PyStr.lower (qualified_name node) = PyStr.lower (PyStr.strip item) ->
     process_node fuel cfg client st node
     = Ok (log_record (LogSkipping (qualified_name node)) st))
  /\ (excluded_languages cfg = parse_csv (Some raw) ->
      forall edge n,
        lang_name (edge_node edge) = Some n ->
        PyStr.lower n = PyStr.lower (PyStr.strip item) ->
        accept_edge cfg edge = None).
Proof.
  intros Hin Hne.
  assert (Hmem : PyStr.lower (PyStr.strip item) ∈ parse_csv (Some raw)).
  { apply parse_csv_elem. by exists raw, item. }
  split.
  - intros Hcfg fuel client st node Hname Hmatch.
    apply process_node_excluded; [done |].
    apply is_excluded_repo_true. rewrite Hcfg.
    destruct Hmatch as [-> | ->]; [by left | by right].
  - intros Hcfg edge n Hn Hmatch. unfold accept_edge. rewrite Hn.
    destruct (negb (PyStr.nonempty n)); [done |].
    rewrite bool_decide_eq_true_2; [done |]. by rewrite Hcfg, Hmatch.
Qed.

Lemma exclusion_ignores_case_witness :
  let cfg := Samples.config (parse_csv (Some "a, B ")) (parse_csv (Some "a, B ")) 10 in
  process_node 0 cfg Samples.client_ab initial_totals Samples.repo_b
  = Ok (log_record (LogSkipping "octo/B") initial_totals)
  /\ accept_edge cfg (Samples.edge "b" 7 None) = None.
Proof.
  intros cfg.
  assert (Hin : In " B " (PyStr.split "," "a, B ")) by (simpl; tauto).
  assert (Hne : PyStr.strip " B " <> "") by discriminate.
  destruct (exclusion_ignores_case cfg "a, B " " B " Hin Hne) as [Hrepo Hlang].
  split.
  - apply (Hrepo eq_refl 0%nat Samples.client_ab initial_totals Samples.repo_b);
      [reflexivity | left; reflexivity].
  - apply (Hlang eq_refl (Samples.edge "b" 7 None) "b"); reflexivity.
Defined.

(** ** The owner of a qualified name *)

Lemma split_head sep a b :
  PyStr.contains sep a = false ->
  hd EmptyString (PyStr.split sep (a +:+ String sep b)) = a.
Proof.
  induction a as [| c r IH]; simpl; intros H.
  - by rewrite Ascii.eqb_refl.
  - apply orb_false_iff in H as [Hc Hr]. rewrite Hc.
    specialize (IH Hr).
    destruct (PyStr.split sep (r +:+ String sep b)); simpl in *; by subst.
Qed.

Lemma contains_app sep a b :
  PyStr.contains sep (a +:+ String sep b) = true.
Proof.
  induction a as [| c r IH]; simpl.
  - by rewrite Ascii.eqb_refl.
  - rewrite IH. apply orb_true_r.
Qed.

(** X3.  The owner asked for the continuation pages of a repository is
    the text of its qualified name before the first slash; a qualified
    name without a slash gives the configured login. *)
Theorem owner_part_is_before_first_slash (cfg : Config) (owner rest : string) :
  PyStr.contains "/" owner = false ->
  owner_part_of cfg (owner +:+ String "/" rest) = owner
  /\ owner_part_of cfg owner = login cfg.
Proof.
  intros H. unfold owner_part_of.
  rewrite contains_app, H. split; [by apply split_head | done].
Qed.

Lemma owner_part_witness :
  owner_part_of (Samples.config ∅ ∅ 10) "octo/P/x" = "octo"
  /\ owner_part_of (Samples.config ∅ ∅ 10) "octo" = "octo".
Proof.
  exact (owner_part_is_before_first_slash (Samples.config ∅ ∅ 10)
           "octo" "P/x" eq_refl).
Defined.

(** ** The configuration *)

Lemma str_truthy_Some s : str_truthy s = true -> exists x, s = Some x /\ x <> "".
Proof.
  destruct s as [x |]; simpl; [| discriminate].
  intros H. exists x. split; [done |]. by apply nonempty_true.
Qed.

Lemma str_or_truthy s d : str_truthy s = true -> s = Some (str_or s d).
Proof. destruct s as [x |]; simpl; [| discriminate]. by intros ->. Qed.

Lemma str_to_bool_outcome value default :
  (exists b, str_to_bool value default = Ok b)
  \/ (exists msg, str_to_bool value default = Raise (ConfigError msg)).
Proof.
  unfold str_to_bool. destruct value as [v |]; [| eauto].
  destruct (str_in _ true_literals); [eauto |].
  destruct (str_in _ false_literals); eauto.
Qed.

(** X4.  A configuration that [from_env] returns has the login and the
    token of the environment, both non-empty; its exclusion sets are the
    parsed lists; its language limit is positive, and it is 10 when
    LANGS_LIMIT is unset or empty and the integer value of LANGS_LIMIT
    otherwise; and the templates directory exists. *)
Theorem from_env_result (getenv : string -> option string)
    (base_dir : string) (templates_exist : bool) (cfg : Config) :
  from_env getenv base_dir templates_exist = Ok cfg ->
  getenv "GITHUB_ACTOR" = Some (login cfg) /\ login cfg <> ""
  /\ getenv "ACCESS_TOKEN" = Some (token cfg) /\ token cfg <> ""
  /\ excluded_repos cfg = parse_csv (getenv "EXCLUDED_REPO")
  /\ excluded_languages cfg = parse_csv (getenv "EXCLUDED_LANGS")
  /\ str_to_bool (getenv "EXCLUDE_FORKED") true = Ok (exclude_forked cfg)
  /\ 0 < languages_limit cfg
  /\ (str_truthy (getenv "LANGS_LIMIT") = false -> languages_limit cfg = 10)
  /\ (str_truthy (getenv "LANGS_LIMIT") = true ->
      PyStr.to_int (str_or (getenv "LANGS_LIMIT") "")
      = Some (languages_limit cfg))
  /\ templates_exist = true
  /\ templates_dir cfg = base_dir +:+ "/templates"
  /\ output_dir cfg = base_dir +:+ "/stats".
Proof.
  unfold from_env. intros H.
  destruct (str_truthy (getenv "GITHUB_ACTOR")) eqn:Hlogin; [| discriminate].
  destruct (str_truthy (getenv "ACCESS_TOKEN")) eqn:Htoken; [| discriminate].
  simpl in H. inv_bind H. rename a into forked. inv_bind H. rename a into limit.
  destruct templates_exist; [| discriminate]. simpl in H.
  inversion H; subst; clear H; simpl.
  destruct (str_truthy_Some _ Hlogin) as (l & Hl & Hlne).
  destruct (str_truthy_Some _ Htoken) as (t & Ht & Htne).
  rewrite Hl, Ht. simpl.
  assert (PyStr.nonempty l = true) as -> by by apply nonempty_true.
  assert (PyStr.nonempty t = true) as -> by by apply nonempty_true.
  repeat split; try done.
  - destruct (str_truthy (getenv "LANGS_LIMIT")).
    + destruct (PyStr.to_int _) as [n |]; [| discriminate].
      destruct (Z.leb_spec n 0); [discriminate |]. inversion Ha0. lia.
    + inversion Ha0. lia.
  - intros Hf. rewrite Hf in Ha0. by inversion Ha0.
  - intros Hf. rewrite Hf in Ha0.
    destruct (PyStr.to_int _) as [n |]; [| discriminate].
    destruct (Z.leb_spec n 0); [discriminate |]. by inversion Ha0.
Qed.

Lemma from_env_result_witness :
  exists cfg,
    from_env Samples.env_minimal "/app" true = Ok cfg
    /\ login cfg = "octo" /\ languages_limit cfg = 10
    /\ templates_dir cfg = "/app/templates".
Proof.
  eexists. split; [vm_compute; reflexivity |].
  edestruct (from_env_result Samples.env_minimal "/app" true)
    as (Hl & _ & _ & _ & _ & _ & _ & _ & Hten & _ & _ & Ht & _);
    [vm_compute; reflexivity |].
  split; [reflexivity |]. split; [exact (Hten eq_refl) | exact Ht].
Defined.

(** X5.  [from_env] succeeds exactly when GITHUB_ACTOR and ACCESS_TOKEN
    are set and non-empty, EXCLUDE_FORKED is unset or a recognised
    literal, LANGS_LIMIT is unset, empty or a positive integer, and the
    templates directory exists; every failure is a configuration
    error. *)
Theorem from_env_succeeds_iff (getenv : string -> option string)
    (base_dir : string) (templates_exist : bool) :
  ((exists cfg, from_env getenv base_dir templates_exist = Ok cfg)
   <-> (str_truthy (getenv "GITHUB_ACTOR") = true
        /\ str_truthy (getenv "ACCESS_TOKEN") = true
        /\ (exists b, str_to_bool (getenv "EXCLUDE_FORKED") true = Ok b)
        /\ valid_limit (getenv "LANGS_LIMIT")
        /\ templates_exist = true))
  /\ ((exists cfg, from_env getenv base_dir templates_exist = Ok cfg)
      \/ (exists msg,
             from_env getenv base_dir templates_exist
             = Raise (ConfigError msg))).
Proof.
  unfold from_env, valid_limit.
  destruct (str_truthy (getenv "GITHUB_ACTOR")) eqn:Hlogin; simpl.
  2:{ split; [| eauto]. split; [by intros [cfg H] | by intros (H & _)]. }
  destruct (str_truthy (getenv "ACCESS_TOKEN")) eqn:Htoken; simpl.
  2:{ split; [| eauto]. split; [by intros [cfg H] | by intros (_ & H & _)]. }
  destruct (str_to_bool_outcome (getenv "EXCLUDE_FORKED") true)
    as [[b Hb] | [msg Hb]]; rewrite Hb; simpl.
  2:{ split; [| eauto].
      split; [by intros [cfg H] | by intros (_ & _ & [b' H] & _)]. }
  destruct (str_truthy (getenv "LANGS_LIMIT")) eqn:Hlimit.
  - destruct (PyStr.to_int (str_or (getenv "LANGS_LIMIT") "")) as [n |] eqn:Hn.
    + destruct (Z.leb_spec n 0) as [Hle | Hgt]; simpl.
      * split; [| eauto]. split; [by intros [cfg H] |].
        intros (_ & _ & _ & [H | (n' & [= <-] & Hpos)] & _); [done | lia].
      * destruct templates_exist; simpl.
        -- split; [| eauto]. split; [| eauto].
           intros _. repeat split; eauto.
        -- split; [| eauto]. split; [by intros [cfg H] | by intros (_&_&_&_&H)].
    + simpl. split; [| eauto]. split; [by intros [cfg H] |].
      by intros (_ & _ & _ & [H | (n' & H & _)] & _).
  - simpl. destruct templates_exist; simpl.
    + split; [| eauto]. split; [| eauto]. intros _. repeat split; eauto.
    + split; [| eauto]. split; [by intros [cfg H] | by intros (_&_&_&_&H)].
Qed.

Lemma from_env_succeeds_witness :
  (exists cfg, from_env Samples.env_minimal "/app" true = Ok cfg)
  /\ ~ (exists cfg, from_env Samples.env_minimal "/app" false = Ok cfg).
Proof.
  split.
  - apply (from_env_succeeds_iff Samples.env_minimal "/app" true).
    repeat split; try reflexivity; [by exists true | by left].
  - intros H.
    apply (from_env_succeeds_iff Samples.env_minimal "/app" false) in H
      as (_ & _ & _ & _ & H).
    discriminate.
Defined.

(** ** Accepted edges *)

Lemma py_int_or_positive v z :
  0 < z -> (py_int (py_or v (PInt 0)) = Some z <-> py_int v = Some z).
Proof.
  intros Hz. split; [| apply py_int_or_Some].
  unfold py_or. destruct (truthy v); [done |].
  simpl. intros [= <-]. lia.
Qed.

(** X6.  An edge is accepted exactly when its language name is present
    and non-empty, the lower-case form of the name is not excluded, and
    its size converts to a positive integer; the accepted share keeps
    the name as it was received, carries that integer, and carries the
    colour of the edge, or the default colour when the edge has none or
    an empty one. *)
Theorem accepted_edge_share (cfg : Config) (edge : Edge) (share : LanguageShare) :
  accept_edge cfg edge = Some share
  <-> exists n z,
      lang_name (edge_node edge) = Some n /\ n <> ""
      /\ (PyStr.lower n ∉ excluded_languages cfg)
      /\ py_int (edge_size edge) = Some z /\ 0 < z
      /\ share = {| ls_name := n; ls_size := z;
                    ls_color := str_or (lang_color (edge_node edge))
                                  DEFAULT_LANGUAGE_COLOR;
                    ls_percent := 0 |}.
Proof.
  unfold accept_edge. split.
  - destruct (lang_name (edge_node edge)) as [n |]; [| discriminate].
    destruct (PyStr.nonempty n) eqn:Hn; [| discriminate]. simpl.
    destruct (bool_decide_reflect (PyStr.lower n ∈ excluded_languages cfg))
      as [| Hnin]; [discriminate |].
    destruct (py_int (py_or _ _)) as [z |] eqn:Hz; [| discriminate].
    destruct (Z.leb_spec z 0) as [| Hpos]; [discriminate |].
    intros [= <-]. exists n, z.
    split; [done |]. split; [by apply nonempty_true |].
    split; [done |]. split; [exact (proj1 (py_int_or_positive _ _ Hpos) Hz) |].
    by split.
  - intros (n & z & -> & Hn & Hnin & Hz & Hpos & ->).
    apply nonempty_true in Hn. rewrite Hn. simpl.
    rewrite bool_decide_eq_false_2 by done.
    rewrite (py_int_or_Some _ _ Hz).
    destruct (Z.leb_spec z 0); [lia | done].
Qed.

Lemma accepted_edge_share_witness :
  accept_edge (Samples.config ∅ {["html"]} 10)
    {| edge_size := PStr " 1_200 ";
       edge_node := {| lang_name := Some "Go"; lang_color := Some "" |} |}
  = Some {| ls_name := "Go"; ls_size := 1200; ls_color := "#ededed";
            ls_percent := 0 |}.
Proof.
  apply accepted_edge_share. exists "Go", 1200.
  split; [reflexivity |]. split; [discriminate |].
  split; [vm_compute; set_solver |].
  split; [reflexivity |]. split; [lia | reflexivity].
Defined.

(** ** The language dictionary *)

Lemma setdefault_get_ne k n default d :
  k <> n -> dict_get n (setdefault k default d) = dict_get n d.
Proof.
  intros Hne. unfold setdefault. destruct (dict_get k d) eqn:E; [done |].
  induction d as [| [k' b'] rest IH]; simpl in *.
  - by destruct (String.eqb_spec k n).
  - destruct (String.eqb k' k); [discriminate |].
    destruct (String.eqb k' n); [done | by apply IH].
Qed.

Lemma merge_language_get_ne size k color n d :
  k <> n -> dict_get n (merge_language size k color d) = dict_get n d.
Proof.
  intros Hne. unfold merge_language.
  by rewrite dict_update_get_ne, setdefault_get_ne.
Qed.



Lemma merge_all_app d l1 l2 :
  merge_all d (l1 ++ l2) = merge_all (merge_all d l1) l2.
Proof. unfold merge_all. apply foldl_app. Qed.

Lemma accumulate_all_totals shares st :
  st_language_totals (foldl (fun st share => accumulate share st) st shares)
  = merge_all (st_language_totals st) shares.
Proof.
  revert st. induction shares as [| s rest IH]; intros st; simpl; [done |].
  by rewrite IH.
Qed.

Lemma logged_shares_app l1 l2 :
  logged_shares (l1 ++ l2) = logged_shares l1 ++ logged_shares l2.
Proof.
  induction l1 as [| r rest IH]; simpl; [done |].
  destruct r; simpl; rewrite IH; by rewrite ?app_assoc.
Qed.

Lemma logged_sizes_shares log : logged_sizes log = sizes_sum (logged_shares log).
Proof.
  induction log as [| r rest IH]; simpl; [done |].
  destruct r; simpl; rewrite ?sizes_sum_app; lia.
Qed.

Lemma collect_traced fuel cfg client owner_name st :
  collect fuel cfg client = Ok (owner_name, st) -> traced cfg st.
Proof.
  apply collect_inv.
  - intros nwo st0 [H1 H2]. split; simpl.
    + by rewrite logged_shares_app, app_nil_r.
    + by rewrite logged_shares_app, app_nil_r.
  - intros node es st0 [H1 H2]. unfold counted.
    destruct (accumulate_all_rest (accepted cfg es) st0) as (_ & _ & _ & Hl).
    split; simpl; rewrite Hl, logged_shares_app; simpl; rewrite app_nil_r.
    + by rewrite accumulate_all_totals, H1, merge_all_app.
    + apply Forall_app. split; [done |].
      apply Forall_forall. intros share Hin.
      apply list_elem_of_omap in Hin as (edge & _ & Hacc). eauto.
  - split; simpl; [done | constructor].
Qed.




Lemma dict_get_None_str_in n d :
  dict_get n d = None <-> str_in n (map fst d) = false.
Proof.
  unfold str_in. induction d as [| [k b] rest IH]; simpl; [done |].
  rewrite (String.eqb_sym n k).
  destruct (String.eqb k n); simpl; [by split | exact IH].
Qed.

Lemma merge_all_keys shares d :
  map fst (merge_all d shares)
  = map fst d ++ first_seen (map fst d) (map ls_name shares).
Proof.
  revert d. induction shares as [| s rest IH]; intros d; simpl.
  - by rewrite app_nil_r.
  - unfold merge_all in *. simpl. rewrite IH, merge_language_keys.
    destruct (dict_get (ls_name s) d) eqn:E.
    + assert (str_in (ls_name s) (map fst d) = true) as ->.
      { destruct (str_in _ _) eqn:F; [done |].
        apply dict_get_None_str_in in F. congruence. }
      by rewrite app_nil_r.
    + apply dict_get_None_str_in in E. rewrite E.
      by rewrite <- app_assoc.
Qed.

(** X8.  The dictionary keeps its languages in the order in which the
    run first accepted an edge for each of them, one entry per name. *)
Theorem dictionary_order_is_first_seen (fuel : nat) (cfg : Config)
    (client : GraphQLClient) (owner_name : option string) (st : Totals) :
  collect fuel cfg client = Ok (owner_name, st) ->
  map fst (st_language_totals st)
  = first_seen [] (map ls_name (logged_shares (st_log st)))
  /\ NoDup (map fst (st_language_totals st)).
Proof.
  intros H. split.
  - apply collect_traced in H as [Ht _]. rewrite Ht. apply merge_all_keys.
  - by apply collect_consistent in H as [].
Qed.

Lemma dictionary_order_witness :
  exists st,
    collect 3 (Samples.config ∅ ∅ 10) Samples.client_paged
    = Ok (Some "Octo Cat", st)
    /\ map ls_name (logged_shares (st_log st))
       = ["Go"; "HTML"; "Python"; "Go"; "C"]
    /\ map fst (st_language_totals st) = ["Go"; "HTML"; "Python"; "C"].
Proof.
  eexists. split; [vm_compute; reflexivity |].
  split; [reflexivity |].
  edestruct (dictionary_order_is_first_seen 3 (Samples.config ∅ ∅ 10)
               Samples.client_paged) as [Hkeys _];
    [vm_compute; reflexivity |].
  rewrite Hkeys. reflexivity.
Defined.

Lemma merge_all_get_None n shares d :
  dict_get n d = None ->
  ~ In n (map ls_name shares) ->
  dict_get n (merge_all d shares) = None.
Proof.
  revert d. induction shares as [| s rest IH]; intros d Hd Hn; simpl; [done |].
  unfold merge_all in *. simpl. simpl in Hn. apply IH; [| tauto].
  rewrite merge_language_get_ne; [done | tauto].
Qed.

Lemma merge_all_colour_kept n shares d b :
  dict_get n d = Some b ->
  PyStr.nonempty (b_color b) = true ->
  exists b', dict_get n (merge_all d shares) = Some b'
             /\ b_color b' = b_color b.
Proof.
  revert d b. induction shares as [| s rest IH]; intros d b Hd Hc; simpl;
    [eauto |].
  unfold merge_all in *. simpl.
  destruct (String.eqb_spec (ls_name s) n) as [<- | Hne].
  - edestruct (IH (merge_language (ls_size s) (ls_name s) (ls_color s) d))
      as (b' & Hb' & Hcol).
    + by apply merge_language_later_colour.
    + exact Hc.
    + eauto.
  - apply (IH _ b); [| done]. by rewrite merge_language_get_ne.
Qed.

(** X9.  The colour the dictionary records for a language is the colour
    of the first accepted edge of that language (the default colour when
    that edge has none); the colours of its later edges are ignored. *)
Theorem recorded_colour_is_the_first (fuel : nat) (cfg : Config)
    (client : GraphQLClient) (owner_name : option string) (st : Totals)
    (earlier later : list LanguageShare) (share : LanguageShare) :
  collect fuel cfg client = Ok (owner_name, st) ->
  logged_shares (st_log st) = earlier ++ share :: later ->
  ~ In (ls_name share) (map ls_name earlier) ->
  exists b, dict_get (ls_name share) (st_language_totals st) = Some b
            /\ b_color b = ls_color share.
Proof.
  intros H Hsplit Hfirst. apply collect_traced in H as [Ht Ha].
  rewrite Ht, Hsplit, merge_all_app. rewrite Hsplit in Ha.
  apply Forall_app in Ha as [_ Ha]. apply Forall_cons in Ha as [[edge He] _].
  apply accept_edge_colour in He as [_ Hcol].
  change (merge_all (merge_all [] earlier) (share :: later))
    with (merge_all (merge_language (ls_size share) (ls_name share)
                       (ls_color share) (merge_all [] earlier)) later).
  assert (Hnone : dict_get (ls_name share) (merge_all [] earlier) = None)
    by by apply merge_all_get_None.
  pose proof (merge_language_first_colour (ls_size share) (ls_name share)
                (ls_color share) _ Hnone) as Hnew.
  assert (Hc : str_or (Some (ls_color share)) DEFAULT_LANGUAGE_COLOR
               = ls_color share).
  { unfold str_or. by rewrite Hcol. }
  rewrite Hc in Hnew.
  destruct (merge_all_colour_kept _ later _ _ Hnew Hcol) as (b' & Hb' & Hcb).
  exists b'. by split.
Qed.

Lemma recorded_colour_witness :
  exists st b,
    collect 3 (Samples.config ∅ ∅ 10) Samples.client_paged
    = Ok (Some "Octo Cat", st)
    /\ dict_get "Go" (st_language_totals st) = Some b
    /\ b_color b = "#00ADD8".
Proof.
  eexists.
  match goal with
  | |- exists b, collect ?f ?c ?cl = Ok (?o, ?st) /\ _ =>
      assert (H : collect f c cl = Ok (o, st)) by (vm_compute; reflexivity)
  end.
  destruct (recorded_colour_is_the_first _ _ _ _ _ []
              [Samples.mk_share "HTML" 70 "#ededed";
               Samples.mk_share "Python" 100 "#3572A5";
               Samples.mk_share "Go" 5 "#ededed";
               Samples.mk_share "C" 30 "#555555"]
              (Samples.mk_share "Go" 400 "#00ADD8") H)
    as (b & Hb & Hcol); [reflexivity | simpl; tauto |].
  exists b. split; [exact H |]. split; [exact Hb | exact Hcol].
Defined.

(** ** The output list *)

Lemma shares_of_dictionary cfg d total share :
  In share (_build_language_shares cfg d total) ->
  0 < total /\ exists item, In item d /\ share = share_of total item.
Proof.
  unfold _build_language_shares.
  destruct (Z.leb_spec total 0) as [| Hpos]; simpl; [done |].
  destruct d as [| item0 rest] eqn:E; [done |]. rewrite <- E. clear E.
  rewrite shares_loop_take. intros H.
  apply in_map_iff in H as (item & <- & Hin).
  split; [done |]. exists item. split; [| done].
  apply list_elem_of_In in Hin. apply subseteq_take in Hin.
  apply list_elem_of_In in Hin.
  eapply Permutation_in; [apply sorted_desc_perm | exact Hin].
Qed.

Lemma prefix_length n s : (String.length (PyStr.prefix n s) <= n)%nat.
Proof.
  unfold PyStr.prefix. revert s.
  induction n as [| n IH]; intros s; destruct s; simpl; try lia.
  specialize (IH s). lia.
Qed.

Lemma prefix_short n s :
  (String.length s <= n)%nat -> PyStr.prefix n s = s.
Proof.
  unfold PyStr.prefix. revert s.
  induction n as [| n IH]; intros s; destruct s; simpl; try done; try lia.
  intros H. rewrite IH; [done | lia].
Qed.

(** X10.  Every share of the output list carries a non-empty colour of
    at most 7 characters: the first 7 characters of the colour of its
    dictionary entry, or the default colour when the entry has none.  A
    stored colour of 1 to 7 characters is passed on unchanged. *)
Theorem output_colours (cfg : Config) (language_totals : list (string * Bucket))
    (total_lines : Z) (share : LanguageShare) :
  In share (_build_language_shares cfg language_totals total_lines) ->
  ls_color share <> ""
  /\ (String.length (ls_color share) <= 7)%nat
  /\ exists data,
      In (ls_name share, data) language_totals
      /\ (b_color data = "" -> ls_color share = DEFAULT_LANGUAGE_COLOR)
      /\ (b_color data <> "" -> (String.length (b_color data) <= 7)%nat ->
          ls_color share = b_color data)
      /\ (b_color data <> "" ->
          ls_color share = PyStr.prefix 7 (b_color data)).
Proof.
  intros H. apply shares_of_dictionary in H as (_ & [n data] & Hin & ->).
  simpl. split; [| split].
  - unfold str_or. destruct (b_color data) as [| c r]; simpl; discriminate.
  - apply prefix_length.
  - exists data. split; [done |]. split; [by intros -> |].
    split.
    + intros Hne Hlen. unfold str_or.
      destruct (PyStr.nonempty (b_color data)) eqn:E.
      * by apply prefix_short.
      * apply nonempty_true in Hne. congruence.
    + intros Hne. unfold str_or.
      destruct (PyStr.nonempty (b_color data)) eqn:E; [done |].
      apply nonempty_true in Hne. congruence.
Qed.

Lemma output_colours_witness :
  let out := _build_language_shares (Samples.config ∅ ∅ 10)
               [("Go", {| b_size := 5; b_color := "#00ADD8ff" |});
                ("C", {| b_size := 3; b_color := "" |})] 8 in
  map ls_color out = ["#00ADD8"; "#ededed"]
  /\ Forall (fun share =>
               (String.length (ls_color share) <= 7)%nat
               /\ (ls_name share = "Go" -> ls_color share = "#00ADD8")
               /\ (ls_name share = "C" -> ls_color share = "#ededed"))
       out.
Proof.
  intros out. split; [reflexivity |].
  apply Forall_forall. intros share Hin. apply list_elem_of_In in Hin.
  destruct (output_colours _ _ _ _ Hin)
    as (_ & Hlen & data & Hdata & Hdefault & _ & Hcut).
  split; [exact Hlen |].
  split; intros Hname; rewrite Hname in Hdata;
    destruct Hdata as [Hitem | [Hitem | []]];
    inversion Hitem; subst data.
  - by rewrite Hcut.
  - by rewrite Hdefault.
Defined.





Lemma sizes_sum_map total items :
  sizes_sum (map (share_of total) items) = dict_sum items.
Proof.
  induction items as [| item rest IH]; simpl; [done |].
  by rewrite share_of_size, IH.
Qed.

Lemma dict_sum_perm d1 d2 : Permutation d1 d2 -> dict_sum d1 = dict_sum d2.
Proof. induction 1; simpl; lia. Qed.

Lemma dict_sum_nonneg d :
  Forall (fun item => 0 < size_of item) d -> 0 <= dict_sum d.
Proof.
  induction d as [| x rest IH]; simpl; intros H; [lia |].
  apply Forall_cons in H as [Hx Hrest]. specialize (IH Hrest). lia.
Qed.

Lemma Forall_positive_perm d1 d2 :
  Permutation d1 d2 ->
  Forall (fun item => 0 < size_of item) d1 ->
  Forall (fun item => 0 < size_of item) d2.
Proof. intros Hp H. by rewrite <- Hp. Qed.

(** X12.  When the repository loop ends, the sizes of the output list
    add up to at most the grand total; they add up to exactly the grand
    total when the limit does not cut any accumulated language off. *)
Theorem output_sizes_sum (fuel : nat) (cfg : Config)
    (client : GraphQLClient) (owner_name : option string) (st : Totals) :
  collect fuel cfg client = Ok (owner_name, st) ->
  let out :=
    _build_language_shares cfg (st_language_totals st) (st_total_lines st) in
  sizes_sum out <= st_total_lines st
  /\ ((length (st_language_totals st) <= Z.to_nat (languages_limit cfg))%nat ->
      sizes_sum out = st_total_lines st).
Proof.
  intros H out. subst out.
  apply collect_consistent in H as [_ Hsum Hpos _ _].
  pose proof (dict_sum_nonneg _ Hpos) as Hnonneg.
  unfold _build_language_shares.
  destruct (Z.leb_spec (st_total_lines st) 0) as [Hle | Hgt]; simpl.
  { split; intros; lia. }
  destruct (st_language_totals st) as [| item0 rest] eqn:E.
  { simpl in *. split; intros; lia. }
  rewrite <- E in *. clear E.
  rewrite shares_loop_take, Z.sub_0_r, sizes_sum_map.
  set (N := Z.to_nat (languages_limit cfg)).
  set (sorted := sorted_desc (st_language_totals st)).
  assert (Hperm : Permutation sorted (st_language_totals st))
    by apply sorted_desc_perm.
  assert (Hall : dict_sum sorted = st_total_lines st)
    by (rewrite (dict_sum_perm _ _ Hperm); lia).
  split.
  - rewrite <- Hall. rewrite <- (take_drop N sorted) at 2.
    rewrite dict_sum_app.
    assert (0 <= dict_sum (drop N sorted)); [| lia].
    apply dict_sum_nonneg, Forall_drop.
    eapply Forall_positive_perm; [symmetry; exact Hperm | done].
  - intros Hlen. rewrite take_ge; [exact Hall |].
    subst sorted. rewrite sorted_desc_length. exact Hlen.
Qed.

Lemma output_sizes_sum_witness :
  exists st,
    collect 1 (Samples.config {["b"]} ∅ 1) Samples.client_ab
    = Ok (Some "Octo Cat", st)
    /\ sizes_sum
         (_build_language_shares (Samples.config {["b"]} ∅ 1)
            (st_language_totals st) (st_total_lines st))
       <= st_total_lines st
    /\ sizes_sum
         (_build_language_shares (Samples.config {["b"]} ∅ 2)
            (st_language_totals st) (st_total_lines st))
       = st_total_lines st.
Proof.
  eexists. split; [vm_compute; reflexivity |].
  split.
  - eapply (output_sizes_sum 1 (Samples.config {["b"]} ∅ 1)
              Samples.client_ab). vm_compute. reflexivity.
  - eapply (output_sizes_sum 1 (Samples.config {["b"]} ∅ 2)
              Samples.client_ab);
      [vm_compute; reflexivity | simpl; lia].
Defined.

Lemma descending_app_le sizes1 sizes2 x y :
  descending (sizes1 ++ sizes2) -> In x sizes1 -> In y sizes2 -> y <= x.
Proof.
  unfold descending.
  induction sizes1 as [| z rest IH]; simpl; intros Hs Hx Hy; [done |].
  apply StronglySorted_inv in Hs as [Hrest Hall].
  destruct Hx as [-> | Hx]; [| by apply IH].
  rewrite Forall_forall in Hall.
  assert (x >= y); [| lia].
  apply Hall, list_elem_of_In, in_or_app. by right.
Qed.

(** X13.  The cut keeps the largest languages: a language of the
    dictionary that is not in the output list is no larger than any
    language that is. *)
Theorem cut_keeps_the_largest (cfg : Config)
    (language_totals : list (string * Bucket)) (total_lines : Z)
    (item : string * Bucket) (share : LanguageShare) :
  In item language_totals ->
  ~ In (fst item)
      (map ls_name (_build_language_shares cfg language_totals total_lines)) ->
  In share (_build_language_shares cfg language_totals total_lines) ->
  size_of item <= ls_size share.
Proof.
  unfold _build_language_shares.
  destruct ((total_lines <=? 0) || _); [done |].
  rewrite shares_loop_take, Z.sub_0_r.
  set (N := Z.to_nat (languages_limit cfg)).
  set (sorted := sorted_desc language_totals).
  intros Hitem Hout Hshare.
  apply in_map_iff in Hshare as (kept & <- & Hkept).
  rewrite share_of_size.
  assert (Hin : In item sorted).
  { eapply Permutation_in; [symmetry; apply sorted_desc_perm | done]. }
  rewrite <- (take_drop N sorted) in Hin.
  apply in_app_or in Hin as [Htaken | Hdropped].
  - destruct Hout. apply in_map_iff.
    exists (share_of total_lines item). split; [apply share_of_name |].
    by apply in_map.
  - pose proof (sorted_desc_descending language_totals) as Hdesc.
    fold sorted in Hdesc. rewrite <- (take_drop N sorted), map_app in Hdesc.
    eapply descending_app_le; [exact Hdesc | |]; by apply in_map.
Qed.

Lemma cut_keeps_the_largest_witness :
  let totals := [("C", {| b_size := 30; b_color := "" |});
                 ("Go", {| b_size := 400; b_color := "" |});
                 ("Python", {| b_size := 100; b_color := "" |})] in
  let out := _build_language_shares (Samples.config ∅ ∅ 2) totals 530 in
  map ls_name out = ["Go"; "Python"]
  /\ Forall (fun share => 30 <= ls_size share) out.
Proof.
  intros totals out. split; [reflexivity |].
  apply Forall_forall. intros share Hin. apply list_elem_of_In in Hin.
  apply (cut_keeps_the_largest (Samples.config ∅ ∅ 2) totals 530
           ("C", {| b_size := 30; b_color := "" |}) share);
    [simpl; tauto | | exact Hin].
  vm_compute. intuition discriminate.
Defined.

Lemma filter_share_names total z items :
  map ls_name
    (List.filter (fun share => ls_size share =? z)
       (map (share_of total) items))
  = map fst (List.filter (fun item => size_of item =? z) items).
Proof.
  induction items as [| item rest IH]; simpl; [done |].
  rewrite share_of_size. destruct (size_of item =? z); simpl; [| done].
  by rewrite share_of_name, IH.
Qed.

(** X14.  Languages of equal size come out in the order the dictionary
    holds them, and when the limit cuts among them it keeps the earlier
    ones: the output languages of any one size are the first of the
    dictionary's languages of that size, in the same order. *)
Theorem ties_keep_dictionary_order (cfg : Config)
    (language_totals : list (string * Bucket)) (total_lines z : Z) :
  map ls_name
    (List.filter (fun share => ls_size share =? z)
       (_build_language_shares cfg language_totals total_lines))
  `prefix_of`
  map fst (List.filter (fun item => size_of item =? z) language_totals).
Proof.
  unfold _build_language_shares.
  destruct ((total_lines <=? 0) || _); [apply prefix_nil |].
  rewrite shares_loop_take, Z.sub_0_r, filter_share_names.
  rewrite <- (sorted_desc_stable z language_totals).
  set (N := Z.to_nat (languages_limit cfg)).
  set (sorted := sorted_desc language_totals).
  rewrite <- (take_drop N sorted) at 2.
  rewrite List.filter_app, map_app. by eexists.
Qed.

(** ** The run as a whole *)

Lemma repositories_loop_keeps_name fuel cfg client n cursor st o st' :
  repositories_loop fuel cfg client (Some n) cursor st = Ok (o, st') ->
  o = Some n.
Proof.
  revert cursor st. induction fuel as [| fuel IH]; intros cursor st H;
    simpl in H; [discriminate |].
  inv_bind H. destruct (repositoryOwner a) as [owner |]; [| discriminate].
  inv_bind H. destruct (hasNextPage _); [by eapply IH |].
  by inversion H.
Qed.

(** X15.  The display name of a result is fixed by the first repository
    page: it is the owner's name there, else the owner's login there,
    else the configured login, whatever the later pages say.  The actor
    login is the configured login and the view count is zero. *)
Theorem display_name_comes_from_first_page (fuel : nat) (cfg : Config)
    (client : GraphQLClient) (r : MetricsResult) (log : list LogRecord) :
  run fuel cfg client = Ok (r, log) ->
  exists data owner,
    execute (post_repositories client (repositories_variables cfg None))
    = Ok data
    /\ repositoryOwner data = Some owner
    /\ display_name r
       = str_or (owner_display_name owner)
           (str_or (owner_login owner) (login cfg))
    /\ actor_login r = login cfg
    /\ total_views r = 0.
Proof.
  unfold run. intros H. inv_bind H. destruct a as [o st].
  inv_bind H. destruct a as [total w]. inversion H; subst; clear H. simpl.
  unfold collect in Ha. destruct fuel as [| fuel]; [discriminate |].
  simpl in Ha. inv_bind Ha. rename a into data.
  destruct (repositoryOwner data) as [owner |] eqn:Ho; [| discriminate].
  inv_bind Ha. exists data, owner. repeat split; try done.
  destruct (hasNextPage _).
  - apply repositories_loop_keeps_name in Ha. by subst.
  - by inversion Ha.
Qed.

Lemma display_name_witness :
  exists r log,
    run 1 (Samples.config ∅ ∅ 10) Samples.client_empty = Ok (r, log)
    /\ display_name r = "Octo Cat".
Proof.
  eexists. eexists. split; [vm_compute; reflexivity |].
  edestruct (display_name_comes_from_first_page 1 (Samples.config ∅ ∅ 10)
               Samples.client_empty)
    as (data & owner & Hd & Ho & Hname & _); [vm_compute; reflexivity |].
  vm_compute in Hd. inversion Hd; subst. simpl in Ho.
  inversion Ho; subst. exact Hname.
Defined.

Lemma execute_errors {D} (exchange : Exchange D) e :
  execute exchange = Raise e -> query_error e.
Proof.
  unfold query_error. destruct exchange as [reason | response].
  - intros [= <-]. eauto.
  - destruct (raise_for_status response) eqn:Hstatus;
      [unfold execute; rewrite Hstatus; intros [= <-]; eauto |].
    destruct (json response) as [[| errors data] |] eqn:Hjson.
    + unfold execute. rewrite Hstatus, Hjson. intros [= <-].
      right. right. by right.
    + rewrite (execute_object _ _ _ Hstatus Hjson).
      destruct (truthy errors).
      * destruct (join_messages_cases errors)
          as [(entries & texts & _ & _ & Hjoin) | (e' & Hjoin & He)];
          rewrite Hjoin; simpl; intros [= <-]; eauto.
      * destruct data; [discriminate | intros [= <-]; eauto].
    + unfold execute. rewrite Hstatus, Hjson. intros [= <-]. eauto.
Qed.

Lemma bind_Raise {A B} (m : outcome A) (k : A -> outcome B) e :
  bind m k = Raise e -> m = Raise e \/ exists a, m = Ok a /\ k a = Raise e.
Proof.
  destruct m as [a | e' |]; simpl; intros H;
    [right; eauto | left; by inversion H | discriminate].
Qed.

Lemma languages_loop_errors fuel client owner name cursor fetched e :
  languages_loop fuel client owner name cursor fetched = Raise e ->
  query_error e.
Proof.
  revert cursor fetched. induction fuel as [| fuel IH];
    intros cursor fetched; simpl.
  - by destruct (str_truthy cursor).
  - destruct (str_truthy cursor); simpl; [| done].
    intros H. apply bind_Raise in H as [H | (data & _ & H)].
    + by apply execute_errors in H.
    + destruct (hasNextPage _); by apply IH in H.
Qed.

Lemma process_node_errors fuel cfg client st node e :
  process_node fuel cfg client st node = Raise e -> query_error e.
Proof.
  unfold process_node.
  destruct (negb (str_truthy (name node))); [done |].
  destruct (is_excluded_repo _ _ _); [done |].
  intros H. apply bind_Raise in H as [H | (es & _ & H)].
  - destruct (_ && _); [| done].
    apply bind_Raise in H as [H | (more & _ & H)]; [| done].
    by apply languages_loop_errors in H.
  - by destruct (edges_loop cfg es [] st).
Qed.

Lemma nodes_loop_errors fuel cfg client ns st e :
  nodes_loop fuel cfg client ns st = Raise e -> query_error e.
Proof.
  revert st. induction ns as [| node rest IH]; intros st; simpl; [done |].
  intros H. apply bind_Raise in H as [H | (st' & _ & H)].
  - by apply process_node_errors in H.
  - by apply IH in H.
Qed.

Lemma repositories_loop_errors fuel cfg client owner_name cursor st e :
  repositories_loop fuel cfg client owner_name cursor st = Raise e ->
  query_error e \/ e = ConfigError (not_found_message cfg).
Proof.
  revert owner_name cursor st. induction fuel as [| fuel IH];
    intros owner_name cursor st; simpl; [done |].
  intros H. apply bind_Raise in H as [H | (data & _ & H)].
  - left. by apply execute_errors in H.
  - destruct (repositoryOwner data) as [owner |].
    + apply bind_Raise in H as [H | (st' & _ & H)].
      * left. by apply nodes_loop_errors in H.
      * destruct (hasNextPage _); [by apply IH in H | done].
    + right. by inversion H.
Qed.

Lemma query_error_not_config e msg : query_error e -> e <> ConfigError msg.
Proof.
  intros [[m ->] | [[reason ->] | [-> | ->]]]; discriminate.
Qed.

(** X16.  The two errors that the program itself raises in a run come
    from the repository loop.  A run that fails with an API error has
    had a repository or language query fail with that error: the
    contributions query never fails a run with an API error.  A run that
    fails with a configuration error has been answered without the
    owner, and the message is the one of "owner not found".  Once the
    repository loop has succeeded, an API error of the contributions
    query leaves the run with a result, and any other exception of that
    query (of the transport, or of the interpreter on an ill-shaped
    answer) fails the run as it is. *)
Theorem run_failures (fuel : nat) (cfg : Config) (client : GraphQLClient) :
  (forall msg,
      run fuel cfg client = Raise (GitHubAPIError msg) ->
      collect fuel cfg client = Raise (GitHubAPIError msg))
  /\ (forall msg,
        run fuel cfg client = Raise (ConfigError msg) ->
        msg = not_found_message cfg
        /\ collect fuel cfg client = Raise (ConfigError msg))
  /\ (forall owner_name st msg,
        collect fuel cfg client = Ok (owner_name, st) ->
        execute (post_contributions client {| cv_login := login cfg |})
        = Raise (GitHubAPIError msg) ->
        exists result, run fuel cfg client = Ok result)
  /\ (forall owner_name st e,
        collect fuel cfg client = Ok (owner_name, st) ->
        execute (post_contributions client {| cv_login := login cfg |})
        = Raise e ->
        (forall msg, e <> GitHubAPIError msg) ->
        run fuel cfg client = Raise e).
Proof.
  split; [| split; [| split]].
  - intros msg H. unfold run in H.
    apply bind_Raise in H as [H | ([o st] & Hc & H)]; [done |].
    exfalso.
    apply bind_Raise in H as [H | ([total w] & _ & H)]; [| done].
    unfold _fetch_contributions_total in H.
    destruct (execute _) as [data | [| | | |] |];
      try discriminate.
    destruct (user data); [destruct (py_int _) |]; discriminate.
  - intros msg H. unfold run in H.
    apply bind_Raise in H as [H | ([o st] & Hc & H)].
    + split; [| done].
      apply repositories_loop_errors in H as [H | H]; [| congruence].
      by apply query_error_not_config with (msg := msg) in H.
    + exfalso.
      apply bind_Raise in H as [H | ([total w] & _ & H)]; [| done].
      unfold _fetch_contributions_total in H.
      destruct (execute _) as [data | e |] eqn:He.
      * destruct (user data); [destruct (py_int _) |]; discriminate.
      * apply execute_errors in He.
        apply query_error_not_config with (msg := msg) in He.
        destruct e; congruence.
      * discriminate.
  - intros owner_name st msg Hc He. unfold run.
    rewrite Hc. simpl. unfold _fetch_contributions_total. rewrite He.
    simpl. eauto.
  - intros owner_name st e Hc He Hother. unfold run.
    rewrite Hc. simpl. unfold _fetch_contributions_total. rewrite He.
    destruct e as [msg | msg | reason | |]; try reflexivity.
    by destruct (Hother msg).
Qed.

Lemma run_failures_witness :
  (exists result,
      run 1 (Samples.config ∅ ∅ 10) Samples.client_contributions_down
      = Ok result)
  /\ run 1 (Samples.config ∅ ∅ 10) Samples.client_contributions_offline
     = Raise (RequestException "timed out").
Proof.
  destruct (run_failures 1 (Samples.config ∅ ∅ 10)
              Samples.client_contributions_down) as (_ & _ & Hdown & _).
  destruct (run_failures 1 (Samples.config ∅ ∅ 10)
              Samples.client_contributions_offline) as (_ & _ & _ & Hoff).
  split.
  - eapply Hdown; vm_compute; reflexivity.
  - eapply Hoff; [vm_compute; reflexivity | reflexivity | discriminate].
Defined.

Lemma total_of_app f l1 l2 : total_of f (l1 ++ l2) = total_of f l1 + total_of f l2.
Proof. induction l1 as [| x rest IH]; simpl; lia. Qed.

Lemma process_node_counts fuel cfg client st node st' :
  process_node fuel cfg client st node = Ok st' ->
  let counted_here := List.filter (is_counted cfg) [node] in
  st_total_stars st' = st_total_stars st + total_of stars_of counted_here
  /\ st_total_forks st' = st_total_forks st + total_of forks_of counted_here
  /\ st_repository_count st'
     = st_repository_count st + Z.of_nat (length counted_here).
Proof.
  intros H. unfold is_counted. simpl.
  apply process_node_cases in H
    as [(Hn & ->) | [(Hn & Hex & ->) | (Hn & Hex & es & _ & ->)]];
    rewrite Hn, ?Hex; simpl; try lia.
  destruct (accumulate_all_rest (accepted cfg es) st) as (H1 & H2 & H3 & _).
  unfold stars_of, forks_of. lia.
Qed.

Lemma nodes_loop_counts fuel cfg client ns st st' :
  nodes_loop fuel cfg client ns st = Ok st' ->
  let counted_here := List.filter (is_counted cfg) ns in
  st_total_stars st' = st_total_stars st + total_of stars_of counted_here
  /\ st_total_forks st' = st_total_forks st + total_of forks_of counted_here
  /\ st_repository_count st'
     = st_repository_count st + Z.of_nat (length counted_here).
Proof.
  revert st. induction ns as [| node rest IH]; intros st H; simpl in H.
  - inversion H; subst. simpl. lia.
  - inv_bind H. apply process_node_counts in Ha as (H1 & H2 & H3).
    apply IH in H as (H4 & H5 & H6). simpl in *.
    destruct (is_counted cfg node); simpl in *; lia.
Qed.

Lemma repositories_loop_counts fuel cfg client owner_name cursor st o st' :
  repositories_loop fuel cfg client owner_name cursor st = Ok (o, st') ->
  exists pages,
    repository_pages fuel cfg client cursor = Ok pages
    /\ let counted_nodes :=
         List.filter (is_counted cfg) (concat (map nodes pages)) in
       st_total_stars st' = st_total_stars st + total_of stars_of counted_nodes
       /\ st_total_forks st'
          = st_total_forks st + total_of forks_of counted_nodes
       /\ st_repository_count st'
          = st_repository_count st + Z.of_nat (length counted_nodes).
Proof.
  revert owner_name cursor st. induction fuel as [| fuel IH];
    intros owner_name cursor st H; simpl in H; [discriminate |].
  simpl. inv_bind H. rewrite Ha. simpl.
  destruct (repositoryOwner a) as [owner |]; [| discriminate].
  inv_bind H. apply nodes_loop_counts in Ha0 as (H1 & H2 & H3).
  destruct (hasNextPage (pageInfo (repositories owner))).
  - apply IH in H as (pages & -> & H4 & H5 & H6). simpl.
    eexists. split; [reflexivity |]. simpl.
    rewrite List.filter_app, !total_of_app, length_app. simpl in *. lia.
  - inversion H; subst. eexists. split; [reflexivity |]. simpl.
    rewrite app_nil_r. simpl in *. lia.
Qed.

(** X17.  When the repository loop ends, the stars and the forks are the
    sums of the star and fork counts (0 for a missing count) of the
    named, non-excluded items of all the pages reached by following the
    repository cursor from the first page, and the repository count is
    the number of those items. *)
Theorem totals_over_counted_repositories (fuel : nat) (cfg : Config)
    (client : GraphQLClient) (owner_name : option string) (st : Totals) :
  collect fuel cfg client = Ok (owner_name, st) ->
  exists pages,
    repository_pages fuel cfg client None = Ok pages
    /\ let counted_nodes :=
         List.filter (is_counted cfg) (concat (map nodes pages)) in
       st_total_stars st = total_of stars_of counted_nodes
       /\ st_total_forks st = total_of forks_of counted_nodes
       /\ st_repository_count st = Z.of_nat (length counted_nodes).
Proof.
  intros H. apply repositories_loop_counts in H as (pages & Hp & H1 & H2 & H3).
  exists pages. split; [exact Hp |]. simpl in *. lia.
Qed.

Lemma totals_over_counted_witness :
  exists st,
    collect 1 (Samples.config {["octo/b"]} ∅ 10) Samples.client_ab
    = Ok (Some "Octo Cat", st)
    /\ st_total_stars st = 3 /\ st_total_forks st = 1
    /\ st_repository_count st = 1.
Proof.
  eexists. split; [vm_compute; reflexivity |].
  edestruct (totals_over_counted_repositories 1
               (Samples.config {["octo/b"]} ∅ 10) Samples.client_ab)
    as (pages & Hp & H1 & H2 & H3); [vm_compute; reflexivity |].
  vm_compute in Hp. inversion Hp; subst; clear Hp.
  split; [exact H1 |]. split; [exact H2 | exact H3].
Defined.

(** ** Fuel *)

Lemma languages_loop_more_fuel fuel fuel' client owner name cursor fetched o :
  (fuel <= fuel')%nat ->
  languages_loop fuel client owner name cursor fetched = o ->
  o <> OutOfFuel ->
  languages_loop fuel' client owner name cursor fetched = o.
Proof.
  revert fuel' cursor fetched.
  induction fuel as [| fuel IH]; intros fuel' cursor fetched Hle H Ho.
  - simpl in H. destruct fuel'; simpl; destruct (str_truthy cursor);
      simpl in *; congruence.
  - destruct fuel' as [| fuel']; [lia |]. simpl in *.
    destruct (str_truthy cursor); simpl in *; [| done].
    destruct (execute _) as [data | e |]; simpl in *; [| done | done].
    destruct (hasNextPage _); apply IH; try done; lia.
Qed.

Lemma process_node_more_fuel fuel fuel' cfg client st node o :
  (fuel <= fuel')%nat ->
  process_node fuel cfg client st node = o ->
  o <> OutOfFuel ->
  process_node fuel' cfg client st node = o.
Proof.
  intros Hle H Ho. unfold process_node, _fetch_additional_languages in *.
  destruct (negb (str_truthy (name node))); [done |].
  destruct (is_excluded_repo _ _ _); [done |].
  destruct (_ && _); [| done].
  destruct (languages_loop fuel client _ _ _ []) as [more | e |] eqn:E.
  - by rewrite (languages_loop_more_fuel fuel fuel' _ _ _ _ _ _ Hle E).
  - by rewrite (languages_loop_more_fuel fuel fuel' _ _ _ _ _ _ Hle E).
  - simpl in H. congruence.
Qed.

Lemma nodes_loop_more_fuel fuel fuel' cfg client ns st o :
  (fuel <= fuel')%nat ->
  nodes_loop fuel cfg client ns st = o ->
  o <> OutOfFuel ->
  nodes_loop fuel' cfg client ns st = o.
Proof.
  intros Hle. revert st. induction ns as [| node rest IH]; intros st H Ho;
    simpl in *; [done |].
  destruct (process_node fuel cfg client st node) as [st' | e |] eqn:E.
  - rewrite (process_node_more_fuel fuel fuel' _ _ _ _ _ Hle E) by done.
    simpl in *. by apply IH.
  - by rewrite (process_node_more_fuel fuel fuel' _ _ _ _ _ Hle E).
  - simpl in H. congruence.
Qed.

Lemma repositories_loop_more_fuel fuel fuel' cfg client owner_name cursor st o :
  (fuel <= fuel')%nat ->
  repositories_loop fuel cfg client owner_name cursor st = o ->
  o <> OutOfFuel ->
  repositories_loop fuel' cfg client owner_name cursor st = o.
Proof.
  revert fuel' owner_name cursor st.
  induction fuel as [| fuel IH]; intros fuel' owner_name cursor st Hle H Ho;
    simpl in H; [congruence |].
  destruct fuel' as [| fuel']; [lia |]. simpl.
  destruct (execute _) as [data | e |]; simpl in *; [| done | done].
  destruct (repositoryOwner data) as [owner |]; [| done].
  destruct (nodes_loop fuel cfg client _ st) as [st' | e |] eqn:E.
  - rewrite (nodes_loop_more_fuel fuel fuel' _ _ _ _ _ ltac:(lia) E) by done.
    simpl in *. destruct (hasNextPage _); [| done]. apply IH; [lia | done..].
  - by rewrite (nodes_loop_more_fuel fuel fuel' _ _ _ _ _ ltac:(lia) E).
  - simpl in H. congruence.
Qed.

(** The bound on the loops does not show in what a run computes: a run
    that ends, with a result or with an error, ends the same way
    under every larger bound. *)
Theorem run_does_not_depend_on_fuel (fuel fuel' : nat) (cfg : Config)
    (client : GraphQLClient) (o : outcome (MetricsResult * list LogRecord)) :
  (fuel <= fuel')%nat ->
  run fuel cfg client = o ->
  o <> OutOfFuel ->
  run fuel' cfg client = o.
Proof.
  intros Hle H Ho. unfold run, collect in *.
  destruct (repositories_loop fuel cfg client None None initial_totals)
    as [[owner st] | e |] eqn:E.
  - by rewrite (repositories_loop_more_fuel fuel fuel' _ _ _ _ _ _ Hle E).
  - by rewrite (repositories_loop_more_fuel fuel fuel' _ _ _ _ _ _ Hle E).
  - simpl in H. congruence.
Qed.

Lemma run_fuel_witness :
  run 3 (Samples.config ∅ ∅ 10) Samples.client_paged
  = run 50 (Samples.config ∅ ∅ 10) Samples.client_paged
  /\ run 2 (Samples.config ∅ ∅ 10) Samples.client_paged = OutOfFuel.
Proof.
  split; [| vm_compute; reflexivity].
  symmetry.
  apply (run_does_not_depend_on_fuel 3 50); [lia | reflexivity |].
  vm_compute. discriminate.
Defined.

(** ** A block without a cursor *)

(** X18.  A language block that announces more pages but gives no cursor,
    or an empty one, is taken as complete: no continuation query is
    sent, whatever the bound and the service, and the repository is
    treated as if the block had announced no further page. *)
Theorem missing_cursor_stops_the_fetch (fuel : nat) (cfg : Config)
    (client : GraphQLClient) (st : Totals) (node : RepositoryNode) :
  str_truthy (endCursor (languages_pageInfo (node_languages node))) = false ->
  (forall owner name,
      _fetch_additional_languages fuel client owner name
        (endCursor (languages_pageInfo (node_languages node))) = Ok [])
  /\ process_node fuel cfg client st node
     = process_node 0 cfg client st (in_one_page node []).
Proof.
  intros Hcursor.
  assert (Hfetch : forall owner name,
             _fetch_additional_languages fuel client owner name
               (endCursor (languages_pageInfo (node_languages node))) = Ok []).
  { intros owner name. unfold _fetch_additional_languages.
    destruct fuel; simpl; by rewrite Hcursor. }
  split; [exact Hfetch |].
  destruct (str_truthy (name node)) eqn:Hname.
  - destruct (is_excluded_repo cfg (bare_name node) (qualified_name node))
      eqn:Hex.
    + by rewrite !process_node_excluded.
    + rewrite !process_node_counted by done. unfold all_edges_of. simpl.
      destruct (hasNextPage _); [rewrite Hfetch |]; simpl;
        by rewrite ?app_nil_r.
  - by rewrite !process_node_unnamed.
Qed.

Lemma missing_cursor_witness :
  let node :=
    Samples.repo "P" "octo/P" 1 0 [Samples.edge "Go" 400 None]
      {| hasNextPage := true; endCursor := Some "" |} in
  exists st,
    process_node 0 (Samples.config ∅ ∅ 10) Samples.client_paged
      initial_totals node = Ok st
    /\ st_total_lines st = 400.
Proof.
  intros node.
  destruct (missing_cursor_stops_the_fetch 0 (Samples.config ∅ ∅ 10)
              Samples.client_paged initial_totals node eq_refl) as [_ H].
  eexists. split; [rewrite H; vm_compute; reflexivity | reflexivity].
Defined.

(** ** Formatting numbers *)

Lemma digits_of_uint d acc :
  PyStr.digits (NilEmpty.string_of_uint d) acc true = Some (uint_value d acc).
Proof.
  revert acc. induction d; intros acc; simpl; try done;
    rewrite ?Z.add_0_r; apply IHd.
Qed.

Lemma digits_of_uint_start d acc :
  d <> Decimal.Nil ->
  PyStr.digits (NilEmpty.string_of_uint d) acc false
  = Some (uint_value d acc).
Proof.
  destruct d; intros Hd; [done | ..]; simpl;
    rewrite ?Z.add_0_r; apply digits_of_uint.
Qed.

Lemma uint_value_revapp d d' :
  uint_value d (Z.of_N (Unsigned.of_lu d'))
  = Z.of_N (Unsigned.of_lu (Decimal.revapp d d')).
Proof.
  revert d'. induction d; intros d'; simpl; [done | ..];
    rewrite <- IHd; f_equal; simpl Unsigned.of_lu; lia.
Qed.

Lemma uint_value_of_uint d : uint_value d 0 = Z.of_N (N.of_uint d).
Proof.
  unfold N.of_uint. rewrite Unsigned.of_uint_alt.
  unfold Decimal.rev. rewrite <- uint_value_revapp. reflexivity.
Qed.

Lemma plain_of_uint d : plain (NilEmpty.string_of_uint d) = true.
Proof. induction d; simpl; done. Qed.

Lemma lstrip_plain s : plain s = true -> PyStr.lstrip_by PyStr.int_space s = s.
Proof.
  destruct s as [| c r]; simpl; [done |].
  destruct (PyStr.int_space c); [discriminate | done].
Qed.

Lemma rstrip_plain s : plain s = true -> PyStr.rstrip_by PyStr.int_space s = s.
Proof.
  induction s as [| c r IH]; simpl; [done |].
  destruct (PyStr.int_space c); [discriminate |]. simpl.
  destruct (Ascii.eqb c ","); [discriminate |]. simpl.
  intros Hr. rewrite (IH Hr). by destruct r.
Qed.

Lemma strip_plain s : plain s = true -> PyStr.strip_by PyStr.int_space s = s.
Proof.
  intros H. unfold PyStr.strip_by. by rewrite lstrip_plain, rstrip_plain.
Qed.

Lemma length_of_uint d :
  String.length (NilEmpty.string_of_uint d) = Decimal.nb_digits d.
Proof. induction d; simpl; congruence. Qed.

Lemma digit_count_of_uint d :
  PyStr.digit_count (NilEmpty.string_of_uint d)
  = Z.of_nat (Decimal.nb_digits d).
Proof.
  unfold PyStr.digit_count. f_equal.
  induction d; simpl; congruence.
Qed.

Lemma to_int_of_uint d :
  d <> Decimal.Nil ->
  Z.of_nat (Decimal.nb_digits d) <= PyStr.INT_MAX_STR_DIGITS ->
  PyStr.to_int (NilEmpty.string_of_uint d) = Some (uint_value d 0)
  /\ PyStr.to_int (String "-" (NilEmpty.string_of_uint d))
     = Some (- uint_value d 0).
Proof.
  intros Hd Hlen. unfold PyStr.to_int. split.
  - rewrite strip_plain by apply plain_of_uint.
    rewrite digit_count_of_uint.
    destruct (Z.ltb_spec PyStr.INT_MAX_STR_DIGITS
                (Z.of_nat (Decimal.nb_digits d))); [lia |].
    rewrite <- (digits_of_uint_start d 0 Hd). by destruct d.
  - rewrite strip_plain by (simpl; apply plain_of_uint).
    change (PyStr.digit_count (String "-" (NilEmpty.string_of_uint d)))
      with (PyStr.digit_count (NilEmpty.string_of_uint d)).
    rewrite digit_count_of_uint.
    destruct (Z.ltb_spec PyStr.INT_MAX_STR_DIGITS
                (Z.of_nat (Decimal.nb_digits d))); [lia |].
    by rewrite digits_of_uint_start.
Qed.

Lemma to_uint_not_Nil n : N.to_uint n <> Decimal.Nil.
Proof.
  destruct n; simpl; [discriminate | apply Unsigned.to_uint_nonnil].
Qed.

Lemma decimal_unfold n : decimal n = NilEmpty.string_of_uint (N.to_uint n).
Proof.
  unfold decimal, NilZero.string_of_uint.
  pose proof (to_uint_not_Nil n). by destruct (N.to_uint n).
Qed.

Lemma decimal_length n :
  String.length (decimal n) = Decimal.nb_digits (N.to_uint n).
Proof. rewrite decimal_unfold. apply length_of_uint. Qed.

Lemma decimal_value n : uint_value (N.to_uint n) 0 = Z.of_N n.
Proof. by rewrite uint_value_of_uint, DecimalN.Unsigned.of_to. Qed.

Lemma to_int_decimal n :
  Z.of_nat (String.length (decimal n)) <= PyStr.INT_MAX_STR_DIGITS ->
  PyStr.to_int (decimal n) = Some (Z.of_N n)
  /\ PyStr.to_int (String "-" (decimal n)) = Some (- Z.of_N n).
Proof.
  rewrite decimal_length, decimal_unfold. intros Hlen.
  destruct (to_int_of_uint (N.to_uint n) (to_uint_not_Nil n) Hlen) as [-> ->].
  by rewrite decimal_value.
Qed.

Lemma uint_value_bounds d acc :
  0 <= acc ->
  acc * 10 ^ Z.of_nat (Decimal.nb_digits d) <= uint_value d acc
  /\ uint_value d acc < (acc + 1) * 10 ^ Z.of_nat (Decimal.nb_digits d).
Proof.
  revert acc. induction d; intros acc Hacc; cbn [Decimal.nb_digits uint_value];
    [rewrite Z.pow_0_r; lia | ..];
    rewrite Nat2Z.inj_succ, Z.pow_succ_r by lia;
    (match goal with
     | |- context [uint_value d ?a] => destruct (IHd a ltac:(lia)) as [Hlo Hhi]
     end);
    assert (Hp : 0 < 10 ^ Z.of_nat (Decimal.nb_digits d))
      by (apply Z.pow_pos_nonneg; lia);
    split; nia.
Qed.

(** [str] writes no leading zero. *)
Lemma to_uint_normal n : N.to_uint n = Decimal.unorm (N.to_uint n).
Proof.
  rewrite <- (DecimalN.Unsigned.to_of (N.to_uint n)).
  by rewrite DecimalN.Unsigned.of_to.
Qed.

(** A number is below the power of ten of its number of digits, and,
    unless it is zero, not below the one before. *)
Lemma decimal_magnitude n :
  Z.of_N n < 10 ^ Z.of_nat (String.length (decimal n))
  /\ (n <> 0%N ->
      10 ^ (Z.of_nat (String.length (decimal n)) - 1) <= Z.of_N n).
Proof.
  rewrite decimal_length, <- decimal_value.
  split.
  - destruct (uint_value_bounds (N.to_uint n) 0 ltac:(lia)). lia.
  - intros Hn.
    pose proof (to_uint_normal n) as Hnormal.
    assert (Hvalue : uint_value (N.to_uint n) 0 <> 0).
    { rewrite decimal_value. lia. }
    unfold Decimal.unorm in Hnormal.
    pose proof (nzhead_nonzero (N.to_uint n)) as Hhead.
    destruct (Decimal.nzhead (N.to_uint n)) eqn:E;
      rewrite Hnormal in *; clear Hnormal;
      cbn [Decimal.nb_digits uint_value] in *;
      try (exfalso; apply Hvalue; reflexivity);
      try (exfalso; by eapply Hhead);
      rewrite Nat2Z.inj_succ;
      (match goal with
       | |- context [uint_value ?d ?a] =>
           destruct (uint_value_bounds d a ltac:(lia)) as [Hlo _]
       end);
      replace (Z.succ (Z.of_nat (Decimal.nb_digits u)) - 1)
        with (Z.of_nat (Decimal.nb_digits u)) by lia;
      assert (Hp : 0 < 10 ^ Z.of_nat (Decimal.nb_digits u))
        by (apply Z.pow_pos_nonneg; lia);
      nia.
Qed.

(** The limit on the digits, as a bound on the number. *)
Lemma decimal_length_bound n k :
  1 <= k ->
  Z.of_nat (String.length (decimal n)) <= k <-> Z.of_N n < 10 ^ k.
Proof.
  intros Hk. destruct (decimal_magnitude n) as [Hhi Hlo]. split.
  - intros Hlen. eapply Z.lt_le_trans; [exact Hhi |].
    apply Z.pow_le_mono_r; lia.
  - intros Hn.
    destruct (Z.le_gt_cases (Z.of_nat (String.length (decimal n))) k)
      as [| Hgt]; [done | exfalso].
    destruct (N.eq_dec n 0%N) as [-> | Hne].
    + change (Z.of_nat (String.length (decimal 0))) with 1 in Hgt. lia.
    + specialize (Hlo Hne).
      assert (10 ^ k <= 10 ^ (Z.of_nat (String.length (decimal n)) - 1))
        by (apply Z.pow_le_mono_r; lia).
      lia.
Qed.

Lemma format_int_within n :
  Z.abs n < 10 ^ PyStr.INT_MAX_STR_DIGITS ->
  Z.of_nat (String.length (decimal (Z.abs_N n))) <= PyStr.INT_MAX_STR_DIGITS
  /\ format_int n = Some (with_commas n).
Proof.
  intros Hn.
  assert (Hlen : Z.of_nat (String.length (decimal (Z.abs_N n)))
                 <= PyStr.INT_MAX_STR_DIGITS).
  { apply decimal_length_bound; [by vm_compute |].
    by rewrite N2Z.inj_abs_N. }
  split; [exact Hlen |]. unfold format_int.
  destruct (Z.ltb_spec PyStr.INT_MAX_STR_DIGITS
              (Z.of_nat (String.length (decimal (Z.abs_N n)))));
    [lia | reflexivity].
Qed.

Lemma format_int_beyond n :
  10 ^ PyStr.INT_MAX_STR_DIGITS <= Z.abs n -> format_int n = None.
Proof.
  intros Hn. unfold format_int.
  destruct (Z.ltb_spec PyStr.INT_MAX_STR_DIGITS
              (Z.of_nat (String.length (decimal (Z.abs_N n)))))
    as [| Hlen]; [reflexivity | exfalso].
  apply decimal_length_bound in Hlen; [| by vm_compute].
  rewrite N2Z.inj_abs_N in Hlen. lia.
Qed.

Lemma without_commas_list l :
  without_commas (string_of_list_ascii l)
  = string_of_list_ascii (List.filter (fun c => negb (Ascii.eqb c ",")) l).
Proof.
  induction l as [| c rest IH]; simpl; [done |].
  destruct (Ascii.eqb c ","); simpl; by rewrite IH.
Qed.

Lemma filter_rev_ascii (f : ascii -> bool) l :
  List.filter f (rev l) = rev (List.filter f l).
Proof.
  induction l as [| c rest IH]; simpl; [done |].
  rewrite List.filter_app, IH. simpl. destruct (f c); simpl; [done |].
  by rewrite app_nil_r.
Qed.

Lemma group_reversed_digits l in_group :
  forallb (fun c => negb (Ascii.eqb c ",")) l = true ->
  List.filter (fun c => negb (Ascii.eqb c ",")) (group_reversed l in_group) = l.
Proof.
  revert in_group. induction l as [| c rest IH]; intros in_group; simpl;
    [done |].
  intros H. apply andb_true_iff in H as [Hc Hrest].
  destruct (Nat.eqb in_group 3); simpl; rewrite Hc, IH; done.
Qed.

Lemma plain_no_commas s :
  plain s = true ->
  forallb (fun c => negb (Ascii.eqb c ",")) (list_ascii_of_string s) = true.
Proof.
  induction s as [| c r IH]; simpl; [done |].
  intros H. apply andb_true_iff in H as [H Hr].
  apply andb_true_iff in H as [_ Hc]. by rewrite Hc, IH.
Qed.

Lemma forallb_rev (f : ascii -> bool) l :
  forallb f l = true -> forallb f (rev l) = true.
Proof.
  rewrite !forallb_forall. intros H x Hx. apply H. by apply in_rev.
Qed.

Lemma without_commas_with_commas n :
  without_commas (with_commas n)
  = if n <? 0 then String "-" (decimal (Z.abs_N n)) else decimal (Z.abs_N n).
Proof.
  unfold with_commas.
  assert (Hbody :
            without_commas
              (string_of_list_ascii
                 (rev (group_reversed
                         (rev (list_ascii_of_string (decimal (Z.abs_N n)))) 0)))
            = decimal (Z.abs_N n)).
  { rewrite without_commas_list, filter_rev_ascii, group_reversed_digits.
    - by rewrite rev_involutive, string_of_list_ascii_of_string.
    - apply forallb_rev, plain_no_commas.
      rewrite decimal_unfold. apply plain_of_uint. }
  destruct (n <? 0); simpl; by rewrite Hbody.
Qed.

(** X19.  [format_number] keeps the number within the interpreter's
    limit on the digits of a conversion: for an integer of at most 4300
    digits, taking the commas out of the text written for it leaves a
    text that [int] reads back as that integer, for negative numbers as
    well.  An integer of more digits is written "0", and so is a value
    that [int] rejects. *)
Theorem format_number_keeps_the_number (value : pyval) :
  (forall n, py_int value = Some n ->
             Z.abs n < 10 ^ PyStr.INT_MAX_STR_DIGITS ->
             PyStr.to_int (without_commas (format_number value)) = Some n)
  /\ (forall n, py_int value = Some n ->
                10 ^ PyStr.INT_MAX_STR_DIGITS <= Z.abs n ->
                format_number value = "0")
  /\ (py_int value = None -> format_number value = "0").
Proof.
  unfold format_number. split; [| split].
  - intros n -> Hn. destruct (format_int_within n Hn) as [Hlen ->].
    rewrite without_commas_with_commas.
    destruct (to_int_decimal (Z.abs_N n) Hlen) as [Hpos Hneg].
    destruct (Z.ltb_spec n 0); [rewrite Hneg | rewrite Hpos]; f_equal; lia.
  - intros n -> Hn. by rewrite (format_int_beyond n Hn).
  - by intros ->.
Qed.

Lemma format_number_witness :
  format_number (PInt (-1234567)) = "-1,234,567"
  /\ PyStr.to_int (without_commas (format_number (PInt (-1234567))))
     = Some (-1234567)
  /\ format_number (PStr "n/a") = "0".
Proof.
  destruct (format_number_keeps_the_number (PInt (-1234567)))
    as (Hback & _ & _).
  destruct (format_number_keeps_the_number (PStr "n/a")) as (_ & _ & Hzero).
  split; [reflexivity |].
  split; [| exact (Hzero eq_refl)].
  apply (Hback _ eq_refl).
  apply Z.lt_le_trans with (10 ^ 7); [reflexivity |].
  apply Z.pow_le_mono_r; [reflexivity | discriminate].
Defined.

Lemma group_reversed_commas l in_group i :
  (in_group <= 3)%nat ->
  forallb (fun c => negb (Ascii.eqb c ",")) l = true ->
  (i < length (group_reversed l in_group))%nat ->
  nth i (group_reversed l in_group) "0"%char = ","%char
  <-> exists k, (i + in_group + 1 = 4 * k)%nat.
Proof.
  revert in_group i. induction l as [| c rest IH]; intros in_group i Hg Hl Hi;
    [simpl in Hi; lia |].
  cbn [forallb] in Hl. apply andb_true_iff in Hl as [Hc Hrest].
  assert (Hne : c <> ","%char).
  { intros ->. discriminate. }
  cbn [group_reversed] in *.
  destruct (Nat.eqb_spec in_group 3) as [-> | Hn].
  - destruct i as [| [| i]]; cbn [nth length] in *.
    + split; [intros _; exists 1%nat; lia | done].
    + split; [done | intros [k Hk]; lia].
    + rewrite IH by (done || lia). split; intros [k Hk].
      * exists (S k). lia.
      * exists (k - 1)%nat. lia.
  - destruct i as [| i]; cbn [nth length] in *.
    + split; [done | intros [k Hk]; lia].
    + rewrite IH by (done || lia). split; intros [k Hk]; exists k; lia.
Qed.

Lemma group_reversed_length l in_group :
  (in_group <= 3)%nat -> l <> [] ->
  ~ exists k, (length (group_reversed l in_group) + in_group = 4 * k)%nat.
Proof.
  revert in_group. induction l as [| c rest IH]; intros in_group Hg Hl;
    [done |]. cbn [group_reversed].
  destruct (Nat.eqb_spec in_group 3) as [-> | Hn]; cbn [length].
  - destruct rest as [| c' rest'].
    + cbn [group_reversed length]. intros [k Hk]. lia.
    + specialize (IH 1%nat ltac:(lia) ltac:(discriminate)).
      intros [k Hk]. apply IH. exists (k - 1)%nat. lia.
  - destruct rest as [| c' rest'].
    + cbn [group_reversed length]. intros [k Hk]. lia.
    + specialize (IH (S in_group) ltac:(lia) ltac:(discriminate)).
      intros [k Hk]. apply IH. exists k. lia.
Qed.

Lemma decimal_not_empty n : list_ascii_of_string (decimal n) <> [].
Proof.
  rewrite decimal_unfold. pose proof (to_uint_not_Nil n).
  by destruct (N.to_uint n).
Qed.

(** X20.  [format_number] groups the digits by three from the right: in
    the text written for a non-negative integer of at most 4300 digits,
    counting the characters from the last one (position 0), the commas
    are exactly at the positions 3, 7, 11, ..., and the text does not
    begin with a comma.  An integer of more digits has no text: the
    format raises.  A negative integer is written as a minus sign before
    the text of its opposite. *)
Theorem format_int_groups_of_three (n : Z) :
  0 <= n ->
  (n < 10 ^ PyStr.INT_MAX_STR_DIGITS ->
   exists formatted,
     format_int n = Some formatted
     /\ let chars := rev (list_ascii_of_string formatted) in
        (forall i, (i < length chars)%nat ->
                   (nth i chars "0"%char = ","%char <-> i mod 4 = 3)%nat)
        /\ (length chars mod 4 <> 0)%nat)
  /\ (10 ^ PyStr.INT_MAX_STR_DIGITS <= n -> format_int n = None)
  /\ format_int (- n - 1) = String "-" <$> format_int (n + 1).
Proof.
  intros Hn. split; [| split].
  - intros Hbound.
    destruct (format_int_within n ltac:(lia)) as [_ ->].
    exists (with_commas n). split; [reflexivity |].
    intros chars. subst chars. unfold with_commas.
    destruct (Z.ltb_spec n 0) as [Hneg | _]; [lia |].
    rewrite list_ascii_of_string_of_list_ascii, rev_involutive.
    set (digits := rev (list_ascii_of_string (decimal (Z.abs_N n)))).
    assert (Hplain : forallb (fun c => negb (Ascii.eqb c ",")) digits = true).
    { apply forallb_rev, plain_no_commas.
      rewrite decimal_unfold. apply plain_of_uint. }
    assert (Hne : digits <> []).
    { subst digits. intros Hnil. apply (f_equal (@rev ascii)) in Hnil.
      rewrite rev_involutive in Hnil. by apply decimal_not_empty in Hnil. }
    split.
    + intros i Hi. rewrite group_reversed_commas by (lia || done).
      pose proof (Nat.div_mod_eq i 4) as Hdiv.
      pose proof (Nat.mod_upper_bound i 4 ltac:(lia)) as Hup.
      split.
      * intros [k Hk]. lia.
      * intros Hmod. exists (i / 4 + 1)%nat. lia.
    + pose proof (group_reversed_length digits 0 ltac:(lia) Hne) as Hlen.
      pose proof (Nat.div_mod_eq (length (group_reversed digits 0)) 4) as Hdiv.
      intros Hmod. apply Hlen.
      exists (length (group_reversed digits 0) / 4)%nat. lia.
  - intros Hbound. apply format_int_beyond. lia.
  - unfold format_int, with_commas.
    replace (Z.abs_N (- n - 1)) with (Z.abs_N (n + 1)) by lia.
    destruct (_ <? Z.of_nat _); [reflexivity |]. simpl.
    destruct (Z.ltb_spec (- n - 1) 0) as [_ | Hge]; [| lia].
    destruct (Z.ltb_spec (n + 1) 0) as [Hlt | _]; [lia | reflexivity].
Qed.

Lemma format_int_groups_witness :
  format_int 1234567 = Some "1,234,567"
  /\ nth 3 (rev (list_ascii_of_string "1,234,567")) "0"%char = ","%char
  /\ format_int (-1000) = Some "-1,000".
Proof.
  destruct (format_int_groups_of_three 1234567 ltac:(lia))
    as (Hcomma & _ & _).
  destruct (format_int_groups_of_three 999 ltac:(lia)) as (_ & _ & Hneg).
  destruct Hcomma as (formatted & Hformatted & Hcommas & _).
  { apply Z.lt_le_trans with (10 ^ 7); [reflexivity |].
    apply Z.pow_le_mono_r; [reflexivity | discriminate]. }
  assert (Hvalue : format_int 1234567 = Some "1,234,567") by reflexivity.
  rewrite Hformatted in Hvalue. injection Hvalue as ->.
  split; [exact Hformatted |].
  split; [apply Hcommas; [vm_compute; lia | reflexivity] |].
  exact Hneg.
Defined.

(** ** The overview template *)

Lemma append_cons c r s : String c r +:+ s = String c (r +:+ s).
Proof. reflexivity. Qed.

Lemma append_nil s : EmptyString +:+ s = s.
Proof. reflexivity. Qed.

Lemma append_assoc (a b c : string) : (a +:+ b) +:+ c = a +:+ (b +:+ c).
Proof.
  induction a as [| x r IH]; [reflexivity |].
  rewrite !append_cons. by rewrite IH.
Qed.

Lemma placeholder_starts k :
  exists r, placeholder_text k = String "{" r.
Proof. destruct k; simpl; eauto. Qed.

Lemma replace_from_literal old_tail new s rest :
  no_brace s = true ->
  replace_from (String "{" old_tail) new 0 (s +:+ rest)
  = s +:+ replace_from (String "{" old_tail) new 0 rest.
Proof.
  unfold no_brace. induction s as [| c r IH]; [done |].
  cbn [PyStr.contains]. rewrite negb_orb. intros H.
  apply andb_true_iff in H as [Hc Hr].
  rewrite !append_cons. cbn [replace_from String.prefix].
  destruct (Ascii.ascii_dec "{" c) as [<- | Hne]; [discriminate |].
  by rewrite IH.
Qed.

Lemma replace_from_hole k k0 v rest :
  replace_from (placeholder_text k0) v 0 (placeholder_text k +:+ rest)
  = segment_text (fill_one k0 v (Hole k))
    +:+ replace_from (placeholder_text k0) v 0 rest.
Proof. destruct rest, k0, k; vm_compute; reflexivity. Qed.

Lemma fill_one_ok k v segs :
  no_brace v = true ->
  Forall literal_ok segs -> Forall literal_ok (map (fill_one k v) segs).
Proof.
  intros Hv Hs. induction Hs as [| seg rest Hseg Hrest IH]; simpl;
    constructor; try done.
  destruct seg as [s | k']; [done |]. by destruct k', k.
Qed.

Lemma replace_pass k v segs :
  Forall literal_ok segs ->
  str_replace (placeholder_text k) v (template_text segs)
  = template_text (map (fill_one k v) segs).
Proof.
  intros Hs.
  assert (Hold : str_replace (placeholder_text k) v (template_text segs)
                 = replace_from (placeholder_text k) v 0 (template_text segs))
    by by destruct k.
  rewrite Hold. clear Hold.
  induction Hs as [| seg rest Hseg Hrest IH]; [reflexivity |].
  cbn [template_text map]. destruct seg as [s | k'].
  - destruct (placeholder_starts k) as [tail Htail]. rewrite Htail in *.
    cbn [segment_text]. rewrite replace_from_literal by exact Hseg.
    rewrite IH. by destruct k.
  - cbn [segment_text]. by rewrite replace_from_hole, IH.
Qed.

Lemma digits_of_uint_chars d :
  forallb PyStr.is_digit (list_ascii_of_string (NilEmpty.string_of_uint d))
  = true.
Proof. induction d; simpl; done. Qed.

Lemma group_reversed_forallb (P : ascii -> bool) l in_group :
  P ","%char = true ->
  forallb P l = true -> forallb P (group_reversed l in_group) = true.
Proof.
  intros Hcomma. revert in_group.
  induction l as [| c rest IH]; intros in_group; simpl; [done |].
  intros H. apply andb_true_iff in H as [Hc Hrest].
  destruct (Nat.eqb in_group 3); simpl; rewrite ?Hcomma, Hc, IH; done.
Qed.

Lemma forallb_impl (P Q : ascii -> bool) l :
  (forall c, P c = true -> Q c = true) ->
  forallb P l = true -> forallb Q l = true.
Proof. rewrite !forallb_forall. auto. Qed.

Lemma digit_is_no_brace c :
  PyStr.is_digit c = true -> negb (Ascii.eqb c "{") = true.
Proof. destruct c as [[] [] [] [] [] [] [] []]; simpl; done. Qed.

Lemma no_brace_forallb s :
  forallb (fun c => negb (Ascii.eqb c "{")) (list_ascii_of_string s) = true ->
  no_brace s = true.
Proof.
  unfold no_brace. induction s as [| c r IH]; simpl; [done |].
  intros H. apply andb_true_iff in H as [Hc Hr].
  rewrite negb_orb, Hc. simpl. by apply IH.
Qed.

Lemma format_number_no_brace n : no_brace (format_number (PInt n)) = true.
Proof.
  unfold format_number. cbn [py_int]. unfold format_int.
  destruct (Z.ltb _ _); [reflexivity |]. unfold with_commas. cbv zeta.
  assert (Hbody :
            forallb (fun c => negb (Ascii.eqb c "{"))
              (rev (group_reversed
                      (rev (list_ascii_of_string (decimal (Z.abs_N n)))) 0))
            = true).
  { apply forallb_rev, group_reversed_forallb; [done |].
    apply forallb_rev. rewrite decimal_unfold.
    eapply forallb_impl; [apply digit_is_no_brace |].
    apply digits_of_uint_chars. }
  apply no_brace_forallb.
  destruct (n <? 0); simpl;
    by rewrite list_ascii_of_string_of_list_ascii, Hbody.
Qed.

Lemma placeholder_value_no_brace metrics k :
  no_brace (display_name metrics) = true ->
  no_brace (placeholder_value metrics k) = true.
Proof. intros H. destruct k; simpl; [done | apply format_number_no_brace..]. Qed.

Lemma filled_after_all_passes metrics segs :
  template_text
    (map (fill_one HRepos (placeholder_value metrics HRepos))
       (map (fill_one HViews (placeholder_value metrics HViews))
          (map (fill_one HLinesChanged (placeholder_value metrics HLinesChanged))
             (map (fill_one HContributions
                     (placeholder_value metrics HContributions))
                (map (fill_one HForks (placeholder_value metrics HForks))
                   (map (fill_one HStars (placeholder_value metrics HStars))
                      (map (fill_one HName (placeholder_value metrics HName))
                         segs)))))))
  = filled metrics segs.
Proof.
  induction segs as [| seg rest IH]; [reflexivity |].
  cbn [map template_text filled]. rewrite IH.
  destruct seg as [s | k]; [reflexivity | by destruct k].
Qed.

(** X21.  For a template made of literal texts without an opening brace
    and of the seven placeholders, and a display name without an opening
    brace, the overview text is the template with every occurrence of
    each placeholder replaced by its value: the display name for
    [{{ name }}] and the comma-grouped number for the six others.  The
    literal texts are kept as they are. *)
Theorem overview_fills_every_placeholder (metrics : MetricsResult)
    (segments : list segment) :
  Forall literal_ok segments ->
  no_brace (display_name metrics) = true ->
  render_overview_text (template_text segments) metrics
  = filled metrics segments.
Proof.
  intros Hs Hname. unfold render_overview_text, overview_replacements.
  cbn [fold_left fst snd].
  pose proof (placeholder_value_no_brace metrics) as Hv.
  change "{{ name }}" with (placeholder_text HName).
  change "{{ stars }}" with (placeholder_text HStars).
  change "{{ forks }}" with (placeholder_text HForks).
  change "{{ contributions }}" with (placeholder_text HContributions).
  change "{{ lines_changed }}" with (placeholder_text HLinesChanged).
  change "{{ views }}" with (placeholder_text HViews).
  change "{{ repos }}" with (placeholder_text HRepos).
  change (display_name metrics) with (placeholder_value metrics HName).
  change (format_number (PInt (total_stars metrics)))
    with (placeholder_value metrics HStars).
  change (format_number (PInt (total_forks metrics)))
    with (placeholder_value metrics HForks).
  change (format_number (PInt (total_contributions metrics)))
    with (placeholder_value metrics HContributions).
  change (format_number (PInt (total_lines_changed metrics)))
    with (placeholder_value metrics HLinesChanged).
  change (format_number (PInt (total_views metrics)))
    with (placeholder_value metrics HViews).
  change (format_number (PInt (repository_count metrics)))
    with (placeholder_value metrics HRepos).
  repeat (rewrite replace_pass;
          [| repeat (apply fill_one_ok; [by apply Hv |]); exact Hs]).
  apply filled_after_all_passes.
Qed.

Lemma overview_witness :
  let metrics :=
    {| actor_login := "octo"; display_name := "Octo Cat";
       total_stars := 1234; total_forks := 5; total_contributions := 42;
       total_lines_changed := 1000000; total_views := 0;
       repository_count := 12; languages := [] |} in
  render_overview_text
    "<b>{{ name }}</b> {{ stars }}/{{ stars }} {{ lines_changed }} }}"
    metrics
  = "<b>Octo Cat</b> 1,234/1,234 1,000,000 }}".
Proof.
  intros metrics.
  exact (overview_fills_every_placeholder metrics
           [Lit "<b>"; Hole HName; Lit "</b> "; Hole HStars; Lit "/";
            Hole HStars; Lit " "; Hole HLinesChanged; Lit " }}"]
           ltac:(repeat constructor) eq_refl).
Defined.
